(** * js-query: the condition compiler of [src/dist/index.d.ts]

    A shallow embedding of [matchQueryCondition], [query],
    [parseQueryCondition], [parseCondition], [isCondition] and [includes],
    with the properties of the specification stated over it.

    JavaScript values are modelled by the inductive type [value]; numbers
    are IEEE 754 doubles ([PrimFloat.float]), exactly as in the language.
    An exception is an explicit [Throw] result.  What the engine and the
    [deep-equal] package provide (date and number parsing, regular
    expressions, deep equality) is an interface, the class [Host]: every
    general theorem holds for every host. *)

From Stdlib Require Import List String Ascii Bool Arith Lia PrimFloat PrimInt63.
From Stdlib Require Import DecimalString DecimalNat Permutation.
Import ListNotations.
Local Open Scope string_scope.
Local Open Scope list_scope.
Set Warnings "-register-all".

(** ** Values *)

Inductive value : Type :=
| VUndefined
| VNull
| VBool (b : bool)
| VNum (n : float)
| VStr (s : string)
| VDate (t : float)            (* a Date object, by its time value *)
| VRegExp (source : string)    (* a RegExp object without flags: [test] is stateless *)
| VArr (elems : list value)
| VObj (props : list (string * value)).
(* [VObj props] lists the own enumerable properties of a plain object in
   the order in which [for ... in] visits them; its keys are distinct. *)

(** ** Completions: a result or a thrown exception *)

Inductive error : Type := TypeError | SyntaxError.

Inductive completion (A : Type) : Type :=
| Normal (a : A)
| Throw (e : error).
Arguments Normal {A} a.
Arguments Throw {A} e.

Definition bind {A B : Type} (c : completion A) (k : A -> completion B) : completion B :=
  match c with
  | Normal a => k a
  | Throw e => Throw e
  end.

Notation "x <- c ;; k" := (bind c (fun x => k))
  (at level 61, c at next level, right associativity).

(** A compiled predicate: [(item) => ...]. *)
Definition predicate : Type := value -> completion value.

(** ** The host: the engine's built-ins and the deep-equal package *)

Class Host : Type := {
  (* [deepEqual(a, b, { strict: true })] of the deep-equal package *)
  deepEqual : value -> value -> bool;
  (* strict mode compares anything with [undefined] by identity *)
  deepEqual_undefined_r : forall a, deepEqual a VUndefined = true -> a = VUndefined;
  deepEqual_undefined_l : forall a, deepEqual VUndefined a = true -> a = VUndefined;
  (* [new Date(s).getTime()] *)
  date_parse : string -> float;
  (* [String(date)], [String(number)], [String(regexp)] and [Number(string)] *)
  date_to_string : float -> string;
  number_to_string : float -> string;
  regexp_to_string : string -> string;
  string_to_number : string -> float;
  (* [new RegExp(s)] throws a SyntaxError unless [s] is a pattern *)
  regexp_valid : string -> bool;
  (* [new RegExp(source).test(text)] *)
  regexp_test : string -> string -> bool
}.

(** ** Coercions and operators of the language *)

Definition typeof (v : value) : string :=
  match v with
  | VUndefined => "undefined"
  | VBool _ => "boolean"
  | VNum _ => "number"
  | VStr _ => "string"
  | VNull | VDate _ | VRegExp _ | VArr _ | VObj _ => "object"
  end.

Definition ToBoolean (v : value) : bool :=
  match v with
  | VUndefined | VNull => false
  | VBool b => b
  | VNum n => negb (PrimFloat.eqb n PrimFloat.zero || PrimFloat.is_nan n)
  | VStr s => negb (s =? "")
  | VDate _ | VRegExp _ | VArr _ | VObj _ => true
  end.

(** [!v] *)
Definition js_not (v : value) : value := VBool (negb (ToBoolean v)).

(** [String(i)] for an array index [i]. *)
Definition index_key (i : nat) : string := NilEmpty.string_of_uint (Nat.to_uint i).

Fixpoint float_of_nat (n : nat) : float :=
  match n with
  | O => PrimFloat.zero
  | S m => PrimFloat.add (float_of_nat m) PrimFloat.one
  end.

(** The number [n], for writing examples. *)
Definition num (n : nat) : value := VNum (float_of_nat n).

(** The element stored under the index key [key], counting from [i]. *)
Fixpoint lookup_index {A : Type} (key : string) (i : nat) (l : list A) : option A :=
  match l with
  | [] => None
  | x :: l' => if key =? index_key i then Some x else lookup_index key (S i) l'
  end.

Fixpoint lookup (key : string) (props : list (string * value)) : option value :=
  match props with
  | [] => None
  | (k, v) :: props' => if key =? k then Some v else lookup key props'
  end.

Definition chars (s : string) : list value :=
  map (fun c => VStr (String c EmptyString)) (list_ascii_of_string s).

(** [item[key]] for a key that is not inherited: own data properties, the
    indices and [length] of arrays and strings.  Reading a property of
    [undefined] or [null] throws.  A key that names an inherited member
    (constructor, toString, the source of a regular expression, ...) is
    read by the language from the prototype chain and yields a function
    or the value of an accessor; functions are outside the value universe,
    and so are such keys.  No statement of this file rests on what [get]
    answers for them: where the result of a lookup matters, it is a
    hypothesis on that lookup.  Strings are sequences of code units below
    128, for which bytes and UTF-16 code units agree. *)
Definition get (item : value) (key : string) : completion value :=
  match item with
  | VUndefined | VNull => Throw TypeError
  | VObj props =>
      Normal (match lookup key props with Some v => v | None => VUndefined end)
  | VArr elems =>
      if key =? "length" then Normal (VNum (float_of_nat (List.length elems)))
      else Normal (match lookup_index key 0 elems with Some v => v | None => VUndefined end)
  | VStr s =>
      if key =? "length" then Normal (VNum (float_of_nat (String.length s)))
      else Normal (match lookup_index key 0 (chars s) with Some v => v | None => VUndefined end)
  | VBool _ | VNum _ | VDate _ | VRegExp _ => Normal VUndefined
  end.

(** [key in arg] for an object [arg], over the same properties as [get]. *)
Definition has_property (arg : value) (key : string) : bool :=
  match arg with
  | VObj props => match lookup key props with Some _ => true | None => false end
  | VArr elems =>
      (key =? "length") ||
      match lookup_index key 0 elems with Some _ => true | None => false end
  | _ => false
  end.

(** [a === b] where one side is a primitive.  Two objects are strictly
    equal when they are the same object; the compiler only ever compares
    with a primitive literal, so that case does not arise and is [false]
    here. *)
Definition strict_equal (a b : value) : bool :=
  match a, b with
  | VUndefined, VUndefined => true
  | VNull, VNull => true
  | VBool x, VBool y => Bool.eqb x y
  | VNum x, VNum y => PrimFloat.eqb x y
  | VStr x, VStr y => (x =? y)
  | _, _ => false
  end.

Section Coercions.
Context {H : Host}.

(** [String(v)]; an array joins its elements with [","], writing
    [undefined] and [null] as the empty string. *)
Fixpoint ToString (v : value) : string :=
  match v with
  | VUndefined => "undefined"
  | VNull => "null"
  | VBool true => "true"
  | VBool false => "false"
  | VNum n => number_to_string n
  | VStr s => s
  | VDate t => date_to_string t
  | VRegExp source => regexp_to_string source
  | VArr elems =>
      (fix join (l : list value) : string :=
         match l with
         | [] => ""
         | x :: l' =>
             let sx := match x with
                       | VUndefined | VNull => ""
                       | _ => ToString x
                       end in
             match l' with
             | [] => sx
             | _ :: _ => (sx ++ "," ++ join l')%string
             end
         end) elems
  | VObj _ => "[object Object]"
  end.

(** [ToPrimitive(v, number)]: a Date gives its time value, the other
    objects their string. *)
Definition ToPrimitive (v : value) : value :=
  match v with
  | VDate t => VNum t
  | VRegExp _ | VArr _ | VObj _ => VStr (ToString v)
  | _ => v
  end.

(** [Number(v)] of a primitive. *)
Definition ToNumber (v : value) : float :=
  match v with
  | VUndefined => PrimFloat.nan
  | VNull => PrimFloat.zero
  | VBool true => PrimFloat.one
  | VBool false => PrimFloat.zero
  | VNum n => n
  | VStr s => string_to_number s
  | _ => PrimFloat.nan
  end.

(** [Number::lessThan]: [None] is the answer [undefined], given when
    either side is NaN. *)
Definition Number_lessThan (x y : float) : option bool :=
  if PrimFloat.is_nan x then None
  else if PrimFloat.is_nan y then None
  else Some (PrimFloat.ltb x y).

(** The abstract relational comparison [IsLessThan(x, y)]. *)
Definition IsLessThan (x y : value) : option bool :=
  match ToPrimitive x, ToPrimitive y with
  | VStr sx, VStr sy => Some (String.ltb sx sy)
  | px, py => Number_lessThan (ToNumber px) (ToNumber py)
  end.

(** [a < b], [a > b], [a <= b], [a >= b]. *)
Definition js_lt (a b : value) : bool :=
  match IsLessThan a b with Some r => r | None => false end.
Definition js_gt (a b : value) : bool :=
  match IsLessThan b a with Some r => r | None => false end.
Definition js_le (a b : value) : bool :=
  match IsLessThan b a with Some r => negb r | None => false end.
Definition js_ge (a b : value) : bool :=
  match IsLessThan a b with Some r => negb r | None => false end.

End Coercions.

(** ** The compiler *)

Section Compiler.
Context {H : Host}.

(** [fns.every((fn) => fn(item))] *)
Fixpoint every (fns : list predicate) (item : value) : completion bool :=
  match fns with
  | [] => Normal true
  | fn :: fns' =>
      r <- fn item ;;
      if ToBoolean r then every fns' item else Normal false
  end.

(** [arr.find(f)]: the first element on which [f] holds, else [undefined]. *)
Definition array_find (f : value -> bool) (arr : list value) : value :=
  match find f arr with
  | Some x => x
  | None => VUndefined
  end.

(** [text.includes(search)] of String.prototype: a TypeError for a
    regular expression, else a substring test on [String(search)]. *)
Definition string_includes (text : string) (search : value) : completion value :=
  match search with
  | VRegExp _ => Throw TypeError
  | _ => Normal (VBool (match String.index 0 (ToString search) text with
                        | Some _ => true
                        | None => false
                        end))
  end.

Definition includes (arr v : value) : completion value :=
  match arr with
  | VStr text => string_includes text v
  | VArr elems => Normal (array_find (fun item => deepEqual item v) elems)
  | _ => Throw TypeError   (* [arr.find] is not a function *)
  end.

Definition keys : list string :=
  [ "$less"; "$lessEqual"; "$greater"; "$greaterEqual"; "$equal"; "$not";
    "$dateBefore"; "$dateAfter"; "$or"; "$nor"; "$and"; "$in"; "$notIn";
    "$contains"; "$notContains"; "$match" ].

Definition isCondition (arg : value) : bool :=
  if negb (ToBoolean arg) || negb (typeof arg =? "object") then false
  else existsb (fun key => has_property arg key) keys.

(** *** The predicates pushed by [parseCondition] *)

Definition lessPredicate (propName : string) (conditionValue : value) : predicate :=
  fun item => v <- get item propName ;; Normal (VBool (js_lt v conditionValue)).
Definition greaterPredicate (propName : string) (conditionValue : value) : predicate :=
  fun item => v <- get item propName ;; Normal (VBool (js_gt v conditionValue)).
Definition lessEqualPredicate (propName : string) (conditionValue : value) : predicate :=
  fun item => v <- get item propName ;; Normal (VBool (js_le v conditionValue)).
Definition greaterEqualPredicate (propName : string) (conditionValue : value) : predicate :=
  fun item => v <- get item propName ;; Normal (VBool (js_ge v conditionValue)).
Definition notPredicate (propName : string) (conditionValue : value) : predicate :=
  fun item => v <- get item propName ;; Normal (VBool (negb (deepEqual v conditionValue))).
Definition equalPredicate (propName : string) (conditionValue : value) : predicate :=
  fun item => v <- get item propName ;; Normal (VBool (deepEqual v conditionValue)).

(** [if (x instanceof Date) x = x.getTime()] *)
Definition dateOperand (conditionValue : value) : value :=
  match conditionValue with
  | VDate t => VNum t
  | _ => conditionValue
  end.

(** The field value of a date predicate: a Date gives its time value, a
    string is parsed as a date, anything else is left as it is. *)
Definition dateField (v : value) : value :=
  match v with
  | VDate t => VNum t
  | VStr s => VNum (date_parse s)
  | _ => v
  end.

Definition dateBeforePredicate (propName : string) (conditionValue : value) : predicate :=
  fun item => v <- get item propName ;; Normal (VBool (js_lt (dateField v) conditionValue)).
Definition dateAfterPredicate (propName : string) (conditionValue : value) : predicate :=
  fun item => v <- get item propName ;; Normal (VBool (js_gt (dateField v) conditionValue)).

(** [for (let predicate of conditions) if (predicate(item)) return b; return !b] *)
Fixpoint firstTruthy (b : bool) (conditions : list predicate) (item : value)
  : completion value :=
  match conditions with
  | [] => Normal (VBool (negb b))
  | p :: conditions' =>
      r <- p item ;;
      if ToBoolean r then Normal (VBool b) else firstTruthy b conditions' item
  end.

(** [for (let predicate of conditions) if (!predicate(item)) return false; return true] *)
Fixpoint firstFalsy (conditions : list predicate) (item : value) : completion value :=
  match conditions with
  | [] => Normal (VBool true)
  | p :: conditions' =>
      r <- p item ;;
      if negb (ToBoolean r) then Normal (VBool false) else firstFalsy conditions' item
  end.

Definition orPredicate (conditions : list predicate) : predicate := firstTruthy true conditions.
Definition andPredicate (conditions : list predicate) : predicate := firstFalsy conditions.
Definition norPredicate (conditions : list predicate) : predicate := firstTruthy false conditions.

Definition inPredicate (propName : string) (conditionValue : value) : predicate :=
  fun item => v <- get item propName ;; includes conditionValue v.
Definition notInPredicate (propName : string) (conditionValue : value) : predicate :=
  fun item => v <- get item propName ;; r <- includes conditionValue v ;; Normal (js_not r).

(** [for (let cond of conds) if (!includes(v, cond)) return false; return true] *)
Fixpoint includesAll (v : value) (conds : list value) : completion value :=
  match conds with
  | [] => Normal (VBool true)
  | cond :: conds' =>
      r <- includes v cond ;;
      if negb (ToBoolean r) then Normal (VBool false) else includesAll v conds'
  end.

(** [for (let cond of conds) if (includes(v, cond)) return false; return true] *)
Fixpoint includesNone (v : value) (conds : list value) : completion value :=
  match conds with
  | [] => Normal (VBool true)
  | cond :: conds' =>
      r <- includes v cond ;;
      if ToBoolean r then Normal (VBool false) else includesNone v conds'
  end.

Definition containsPredicate (propName : string) (conditionValue : value) : predicate :=
  fun item =>
    v <- get item propName ;;
    match v with
    | VArr _ =>
        match conditionValue with
        | VArr conds => includesAll v conds
        | _ => includes v conditionValue
        end
    | VStr _ =>
        match conditionValue with
        | VArr conds => includesAll v conds
        | _ => includes v conditionValue
        end
    | _ => Normal (VBool false)
    end.

Definition notContainsPredicate (propName : string) (conditionValue : value) : predicate :=
  fun item =>
    v <- get item propName ;;
    match v with
    | VArr _ =>
        match conditionValue with
        | VArr conds => includesNone v conds
        | _ => r <- includes v conditionValue ;; Normal (js_not r)
        end
    | VStr _ =>
        match conditionValue with
        | VArr conds => includesNone v conds
        | _ => r <- includes v conditionValue ;; Normal (js_not r)
        end
    | _ => Normal (VBool false)
    end.

(** [if (typeof x === "string") x = new RegExp(x)] *)
Definition matchOperand (conditionValue : value) : completion value :=
  match conditionValue with
  | VStr s => if regexp_valid s then Normal (VRegExp s) else Throw SyntaxError
  | _ => Normal conditionValue
  end.

(** [conditionValue.test(item[propName])]; only a regular expression
    has a [test] method. *)
Definition matchPredicate (propName : string) (conditionValue : value) : predicate :=
  fun item =>
    match conditionValue with
    | VRegExp source =>
        v <- get item propName ;; Normal (VBool (regexp_test source (ToString v)))
    | _ => Throw TypeError
    end.

(** *** [parseCondition] *)

(** [conditionValue.forEach((condition) => parseCondition(propName,
    condition, conditions))]; only an array has [forEach]. *)
Definition forEachCondition
    (rec : value -> list predicate -> completion (list predicate))
    (conditionValue : value) : completion (list predicate) :=
  match conditionValue with
  | VArr branches =>
      (fix each (l : list value) (conditions : list predicate) :=
         match l with
         | [] => Normal conditions
         | condition :: l' =>
             conditions' <- rec condition conditions ;;
             each l' conditions'
         end) branches []
  | _ => Throw TypeError
  end.

(** One turn of the loop [for (let conditionKey in condition)]; [rec] is
    [parseCondition propName], [filterPredicates] the array being filled. *)
Definition conditionStep
    (rec : value -> list predicate -> completion (list predicate))
    (propName conditionKey : string) (conditionValue : value)
    (filterPredicates : list predicate) : completion (list predicate) :=
  let push (p : predicate) := Normal (filterPredicates ++ [p]) in
  match conditionValue with
  | VUndefined => Normal filterPredicates          (* continue *)
  | _ =>
      if conditionKey =? "$less" then push (lessPredicate propName conditionValue)
      else if conditionKey =? "$greater" then push (greaterPredicate propName conditionValue)
      else if conditionKey =? "$lessEqual" then push (lessEqualPredicate propName conditionValue)
      else if conditionKey =? "$greaterEqual" then
        push (greaterEqualPredicate propName conditionValue)
      else if conditionKey =? "$not" then push (notPredicate propName conditionValue)
      else if conditionKey =? "$equal" then push (equalPredicate propName conditionValue)
      else if conditionKey =? "$dateBefore" then
        push (dateBeforePredicate propName (dateOperand conditionValue))
      else if conditionKey =? "$dateAfter" then
        push (dateAfterPredicate propName (dateOperand conditionValue))
      else if conditionKey =? "$or" then
        conditions <- forEachCondition rec conditionValue ;;
        push (orPredicate conditions)
      else if conditionKey =? "$and" then
        conditions <- forEachCondition rec conditionValue ;;
        push (andPredicate conditions)
      else if conditionKey =? "$nor" then
        conditions <- forEachCondition rec conditionValue ;;
        push (norPredicate conditions)
      else if conditionKey =? "$in" then push (inPredicate propName conditionValue)
      else if conditionKey =? "$notIn" then push (notInPredicate propName conditionValue)
      else if conditionKey =? "$contains" then push (containsPredicate propName conditionValue)
      else if conditionKey =? "$notContains" then
        push (notContainsPredicate propName conditionValue)
      else if conditionKey =? "$match" then
        regexp <- matchOperand conditionValue ;;
        push (matchPredicate propName regexp)
      else Normal filterPredicates
  end.

(** [parseCondition(propName, condition, filterPredicates)], returning
    the array it has filled.  The keys of an array or of a string are
    index keys, none of them an operator name, so the loop over them
    pushes nothing ([conditionStep_index_key]); other primitives,
    dates and regular expressions have no enumerable key. *)
Fixpoint parseCondition (propName : string) (condition : value)
    (filterPredicates : list predicate) {struct condition}
  : completion (list predicate) :=
  match condition with
  | VObj props =>
      (fix loop (l : list (string * value)) (acc : list predicate) :=
         match l with
         | [] => Normal acc
         | (conditionKey, conditionValue) :: l' =>
             acc' <- conditionStep (parseCondition propName) propName
                       conditionKey conditionValue acc ;;
             loop l' acc'
         end) props filterPredicates
  | _ => Normal filterPredicates
  end.

(** *** [parseQueryCondition] *)

(** [for (let fnArray of conditions) if (fnArray.every(...)) return b; return !b] *)
Fixpoint firstBranch (b : bool) (conditions : list (list predicate)) (item : value)
  : completion value :=
  match conditions with
  | [] => Normal (VBool (negb b))
  | fnArray :: conditions' =>
      ok <- every fnArray item ;;
      if ok then Normal (VBool b) else firstBranch b conditions' item
  end.

(** [for (let fnArray of conditions) if (!fnArray.every(...)) return false; return true] *)
Fixpoint allBranches (conditions : list (list predicate)) (item : value)
  : completion value :=
  match conditions with
  | [] => Normal (VBool true)
  | fnArray :: conditions' =>
      ok <- every fnArray item ;;
      if negb ok then Normal (VBool false) else allBranches conditions' item
  end.

Definition andBranches (conditions : list (list predicate)) : predicate :=
  allBranches conditions.
Definition orBranches (conditions : list (list predicate)) : predicate :=
  firstBranch true conditions.
Definition norBranches (conditions : list (list predicate)) : predicate :=
  firstBranch false conditions.

(** The predicate of a nested record.  [item[key]] is read again at each
    use in the source; reading has no effect, so it is bound once. *)
Definition nestedPredicate (keyOrPropName : string) (subFilterPredicates : list predicate)
  : predicate :=
  fun item =>
    v <- get item keyOrPropName ;;
    if strict_equal v VUndefined || strict_equal v VNull then Normal (VBool false)
    else ok <- every subFilterPredicates v ;; Normal (VBool ok).

(** [(item) => item[keyOrPropName] === conditionValue] *)
Definition literalPredicate (keyOrPropName : string) (conditionValue : value) : predicate :=
  fun item => v <- get item keyOrPropName ;; Normal (VBool (strict_equal v conditionValue)).

(** [filterConditions.map(parseQueryCondition)]; only an array has [map]. *)
Definition mapConditions (rec : value -> completion (list predicate))
    (conditionValue : value) : completion (list (list predicate)) :=
  match conditionValue with
  | VArr filterConditions =>
      (fix each (l : list value) :=
         match l with
         | [] => Normal []
         | c :: l' =>
             fnArray <- rec c ;;
             rest <- each l' ;;
             Normal (fnArray :: rest)
         end) filterConditions
  | _ => Throw TypeError
  end.

(** [key === "$or" || key === "$nor" || key === "$and"] *)
Definition logicalKey (key : string) : bool :=
  (key =? "$or") || (key =? "$nor") || (key =? "$and").

(** One turn of the loop [for (let keyOrPropName in condition)]; [rec] is
    [parseQueryCondition]. *)
Definition queryStep (rec : value -> completion (list predicate))
    (keyOrPropName : string) (conditionValue : value)
    (filterPredicates : list predicate) : completion (list predicate) :=
  let push (p : predicate) := Normal (filterPredicates ++ [p]) in
  if logicalKey keyOrPropName then
    conditions <- mapConditions rec conditionValue ;;
    if keyOrPropName =? "$and" then push (andBranches conditions)
    else if keyOrPropName =? "$or" then push (orBranches conditions)
    else push (norBranches conditions)
  else if isCondition conditionValue then
    parseCondition keyOrPropName conditionValue filterPredicates
  else if (typeof conditionValue =? "object") && ToBoolean conditionValue then
    subFilterPredicates <- rec conditionValue ;;
    push (nestedPredicate keyOrPropName subFilterPredicates)
  else push (literalPredicate keyOrPropName conditionValue).

(** The predicates of a string used as a condition: its keys are its
    indices and its values one-character strings, each compared as a
    literal ([queryStep_char]). *)
Fixpoint charPredicates (i : nat) (cs : list value) : list predicate :=
  match cs with
  | [] => []
  | c :: cs' => literalPredicate (index_key i) c :: charPredicates (S i) cs'
  end.

Fixpoint parseQueryCondition (condition : value) : completion (list predicate) :=
  if negb (ToBoolean condition) then Normal []
  else
    match condition with
    | VObj props =>
        (fix loop (l : list (string * value)) (acc : list predicate) :=
           match l with
           | [] => Normal acc
           | (keyOrPropName, conditionValue) :: l' =>
               acc' <- queryStep parseQueryCondition keyOrPropName conditionValue acc ;;
               loop l' acc'
           end) props []
    | VArr elems =>
        (fix loop (i : nat) (l : list value) (acc : list predicate) :=
           match l with
           | [] => Normal acc
           | conditionValue :: l' =>
               acc' <- queryStep parseQueryCondition (index_key i) conditionValue acc ;;
               loop (S i) l' acc'
           end) 0 elems []
    | VStr s => Normal (charPredicates 0 (chars s))
    | _ => Normal []
    end.

Definition matchQueryCondition (data condition : value) : completion bool :=
  filterPredicates <- parseQueryCondition condition ;;
  every filterPredicates data.

(** [query(condition)]: the compiled filter [(value) => arr.every(...)]. *)
Definition query (condition : value) : completion (value -> completion bool) :=
  arr <- parseQueryCondition condition ;;
  Normal (fun v => every arr v).
End Compiler.

(** ** Vocabulary of the properties *)

Section Vocabulary.
Context {H : Host}.

(** A predicate holds on an item when it returns a truthy value. *)
Definition holds (fn : predicate) (item : value) : Prop :=
  exists r, fn item = Normal r /\ ToBoolean r = true.

(** A predicate fails on an item when it returns a falsy value. *)
Definition fails (fn : predicate) (item : value) : Prop :=
  exists r, fn item = Normal r /\ ToBoolean r = false.

(** The loop of [parseCondition] over the entries of an operator condition. *)
Fixpoint conditionLoop (propName : string) (l : list (string * value))
    (acc : list predicate) : completion (list predicate) :=
  match l with
  | [] => Normal acc
  | (conditionKey, conditionValue) :: l' =>
      acc' <- conditionStep (parseCondition propName) propName conditionKey conditionValue acc ;;
      conditionLoop propName l' acc'
  end.

(** The loop of [parseQueryCondition] over the entries of a record. *)
Fixpoint queryLoop (l : list (string * value)) (acc : list predicate)
  : completion (list predicate) :=
  match l with
  | [] => Normal acc
  | (keyOrPropName, conditionValue) :: l' =>
      acc' <- queryStep parseQueryCondition keyOrPropName conditionValue acc ;;
      queryLoop l' acc'
  end.

(** The timestamp a date-like value stands for: the time value of a Date,
    a number itself, a string parsed as a date. *)
Definition timestamp (v : value) : float :=
  match v with
  | VDate t => t
  | VNum n => n
  | VStr s => date_parse s
  | _ => PrimFloat.nan
  end.

(** The declared type of a date operand: [Date | number]. *)
Definition dateOrNumber (v : value) : bool :=
  match v with
  | VDate _ | VNum _ => true
  | _ => false
  end.

(** A date value, a numeric timestamp or a string. *)
Definition dateNumberOrString (v : value) : bool :=
  match v with
  | VDate _ | VNum _ | VStr _ => true
  | _ => false
  end.

(** [v instanceof Array || typeof v === "string"] *)
Definition arrayOrString (v : value) : bool :=
  match v with
  | VArr _ | VStr _ => true
  | _ => false
  end.

(** [v instanceof Array] *)
Definition isArray (v : value) : bool :=
  match v with
  | VArr _ => true
  | _ => false
  end.

(** The predicates of each branch of a field-scoped logical operator,
    compiled on their own. *)
Fixpoint branchPredicates (propName : string) (branches : list value)
  : completion (list (list predicate)) :=
  match branches with
  | [] => Normal []
  | b :: branches' =>
      ps <- parseCondition propName b [] ;;
      rest <- branchPredicates propName branches' ;;
      Normal (ps :: rest)
  end.

(** One of the sixteen operator keys. *)
Definition recognized (k : string) : bool := existsb (String.eqb k) keys.

(** [v === undefined] *)
Definition isUndefined (v : value) : bool :=
  match v with
  | VUndefined => true
  | _ => false
  end.

(** What one entry of an operator condition pushes. *)
Definition pushes (e : string * value) : nat :=
  if recognized (fst e) && negb (isUndefined (snd e)) then 1 else 0.

(** What one top-level entry of a condition contributes. *)
Definition contribution (e : string * value) : nat :=
  if logicalKey (fst e) then 1
  else if isCondition (snd e) then
         match snd e with
         | VObj props => list_sum (map pushes props)
         | _ => 0
         end
       else 1.






(** [v instanceof RegExp] *)
Definition isRegExp (v : value) : bool :=
  match v with
  | VRegExp _ => true
  | _ => false
  end.

(** [text.includes(search)] for two strings. *)
Definition occursIn (search text : string) : bool :=
  match String.index 0 search text with
  | Some _ => true
  | None => false
  end.



End Vocabulary.

(** ** Vocabulary of the further properties *)

(** An entry of an operator condition that pushes a predicate: a
    recognized operator with a defined operand. *)
Definition effective (e : string * value) : bool :=
  recognized (fst e) && negb (isUndefined (snd e)).

Section DateVocabulary.
Context {H : Host}.

(** A field value whose timestamp is NaN: an invalid Date, the number
    NaN, or a string that does not parse as a date. *)
Definition invalidDateField (v : value) : bool :=
  match v with
  | VDate t | VNum t => PrimFloat.is_nan t
  | VStr s => PrimFloat.is_nan (date_parse s)
  | _ => false
  end.

End DateVocabulary.

(** An operand whose timestamp is NaN: an invalid Date or the number NaN. *)
Definition invalidDateOperand (v : value) : bool :=
  match v with
  | VDate t | VNum t => PrimFloat.is_nan t
  | _ => false
  end.

(** ** [sortData] *)

Section Ordering.
Context {H : Host}.

(** [Number::subtract]: NaN when either side is NaN, else the IEEE
    difference. *)
Definition Number_subtract (x y : float) : float :=
  if PrimFloat.is_nan x || PrimFloat.is_nan y then PrimFloat.nan
  else PrimFloat.sub x y.

(** [x - y]: both sides are turned into numbers. *)
Definition js_sub (x y : value) : value :=
  VNum (Number_subtract (ToNumber (ToPrimitive x)) (ToNumber (ToPrimitive y))).

(** A comparison function [(a, b) => ...]. *)
Definition comparator : Type := value -> value -> completion value.

(** [(a, b) => a[item.field] - b[item.field]] *)
Definition ascending (item : value) : comparator :=
  fun a b =>
    fa <- get item "field" ;;
    x <- get a (ToString fa) ;;
    fb <- get item "field" ;;
    y <- get b (ToString fb) ;;
    Normal (js_sub x y).

(** [(a, b) => b[item.field] - a[item.field]] *)
Definition descending (item : value) : comparator :=
  fun a b =>
    fb <- get item "field" ;;
    y <- get b (ToString fb) ;;
    fa <- get item "field" ;;
    x <- get a (ToString fa) ;;
    Normal (js_sub y x).

(** The callback of [sortOrders.map]. *)
Definition sortPredicateOf (item : value) : completion comparator :=
  order <- get item "order" ;;
  if strict_equal order (VStr "asc") then Normal (ascending item)
  else Normal (descending item).

(** [sortOrders.map(...)]; only an array has [map]. *)
Definition sortPredicatesOf (sortOrders : value) : completion (list comparator) :=
  match sortOrders with
  | VArr items =>
      (fix each (l : list value) :=
         match l with
         | [] => Normal []
         | item :: l' =>
             p <- sortPredicateOf item ;;
             rest <- each l' ;;
             Normal (p :: rest)
         end) items
  | _ => Throw TypeError
  end.

(** The comparison function given to [array.sort]: the first truthy value
    among the sort predicates, else 0. *)
Fixpoint sortComparator (sortPredicates : list comparator) (a b : value)
  : completion value :=
  match sortPredicates with
  | [] => Normal (VNum PrimFloat.zero)
  | sortPredicate :: rest =>
      v <- sortPredicate a b ;;
      if ToBoolean v then Normal v else sortComparator rest a b
  end.

(** [Array.prototype.sort] belongs to the engine: it is a parameter. *)
Variable array_sort : comparator -> list value -> completion (list value).

(** [sortData(array, sortOrders)], returning the new contents of [array]. *)
Definition sortData (array sortOrders : value) : completion value :=
  sortPredicates <- sortPredicatesOf sortOrders ;;
  match array with
  | VArr elems =>
      sorted <- array_sort (sortComparator sortPredicates) elems ;;
      Normal (VArr sorted)
  | _ => Throw TypeError
  end.

(** Two sort rules on the same field, one ascending and one not. *)
Definition opposite (item item' : value) : Prop :=
  get item "field" = get item' "field" /\
  exists order order',
    get item "order" = Normal order /\ get item' "order" = Normal order' /\
    strict_equal order (VStr "asc") = negb (strict_equal order' (VStr "asc")).

End Ordering.

(** ** A small host for closed examples

    The examples at the end of the file are evaluated on this host.  It
    implements each built-in on the fragment the examples use:
    - [deepEqual] is structural equality, numbers compared as by
      [Object.is], records compared key by key whatever the order;
    - [date_parse] knows the ISO dates "1970-01-01" and "1970-01-02" and
      answers NaN (an invalid date) otherwise;
    - [string_to_number] reads the empty string as 0 and a string of
      decimal digits as its value, and answers NaN otherwise;
    - regular expressions are the patterns made of letters and digits
      only, which match a text exactly when they occur in it;
    - [String] of a number, of a date or of a regular expression is not
      called by any example. *)

Definition same_number (x y : float) : bool :=
  if PrimFloat.is_nan x then PrimFloat.is_nan y
  else PrimFloat.eqb x y && Bool.eqb (PrimFloat.get_sign x) (PrimFloat.get_sign y).

Fixpoint structural_equal (a b : value) {struct a} : bool :=
  match a, b with
  | VUndefined, VUndefined => true
  | VNull, VNull => true
  | VBool x, VBool y => Bool.eqb x y
  | VNum x, VNum y => same_number x y
  | VStr x, VStr y => (x =? y)
  | VDate x, VDate y => same_number x y
  | VRegExp x, VRegExp y => (x =? y)
  | VArr l, VArr l' =>
      (fix each (l l' : list value) : bool :=
         match l, l' with
         | [], [] => true
         | x :: m, y :: m' => structural_equal x y && each m m'
         | _, _ => false
         end) l l'
  | VObj p, VObj p' =>
      (List.length p =? List.length p')%nat &&
      (fix each (p : list (string * value)) : bool :=
         match p with
         | [] => true
         | (k, v) :: q =>
             match lookup k p' with
             | Some v' => structural_equal v v'
             | None => false
             end && each q
         end) p
  | _, _ => false
  end.

Definition is_digit (c : ascii) : bool :=
  (48 <=? nat_of_ascii c)%nat && (nat_of_ascii c <=? 57)%nat.

Definition is_letter (c : ascii) : bool :=
  ((65 <=? nat_of_ascii c)%nat && (nat_of_ascii c <=? 90)%nat) ||
  ((97 <=? nat_of_ascii c)%nat && (nat_of_ascii c <=? 122)%nat).

Definition decimal_digits (s : string) : bool :=
  forallb is_digit (list_ascii_of_string s).

Definition decimal_value (s : string) : float :=
  fold_left (fun acc c =>
               PrimFloat.add (PrimFloat.mul acc (float_of_nat 10))
                             (float_of_nat (nat_of_ascii c - 48)))
            (list_ascii_of_string s) PrimFloat.zero.

Definition literal_pattern (s : string) : bool :=
  negb (s =? "") && forallb (fun c => is_digit c || is_letter c) (list_ascii_of_string s).

Definition occurs_in (pattern text : string) : bool :=
  match String.index 0 pattern text with
  | Some _ => true
  | None => false
  end.

#[local] Instance example_host : Host.
Proof.
  refine {|
    deepEqual := structural_equal;
    date_parse := fun s =>
      if s =? "1970-01-01" then PrimFloat.zero
      else if s =? "1970-01-02" then 86400000%float
      else PrimFloat.nan;
    date_to_string := fun _ => "Invalid Date";
    number_to_string := fun _ => "NaN";
    regexp_to_string := fun source => ("/" ++ source ++ "/")%string;
    string_to_number := fun s => if decimal_digits s then decimal_value s else PrimFloat.nan;
    regexp_valid := literal_pattern;
    regexp_test := occurs_in
  |}.
  - intros a E. destruct a; simpl in E; try discriminate E. reflexivity.
  - intros a E. destruct a; simpl in E; try discriminate E. reflexivity.
Defined.

(** ** Properties of the compiler, for every host *)

Section Properties.
Context {H : Host}.

Lemma every_true_iff (fns : list predicate) (item : value) :
  every fns item = Normal true <-> Forall (fun fn => holds fn item) fns.
Proof.
  induction fns as [|fn fns IH]; simpl.
  - split; auto.
  - split.
    + intros E. destruct (fn item) as [r|e] eqn:Er; simpl in E; [|discriminate].
      destruct (ToBoolean r) eqn:Eb; [|discriminate].
      constructor; [exists r; auto | apply IH; exact E].
    + intros F. inversion F as [|? ? [r [Er Eb]] F']; subst.
      rewrite Er; simpl. rewrite Eb. apply IH; exact F'.
Qed.

(** C7: the empty condition matches every item, and an absent or null
    condition compiles to the empty predicate sequence, whose filter
    accepts every item. *)
Theorem C7_empty_condition_matches_everything :
  (forall I, matchQueryCondition I (VObj []) = Normal true) /\
  parseQueryCondition VUndefined = Normal [] /\
  parseQueryCondition VNull = Normal [] /\
  (forall I, exists filter, query VUndefined = Normal filter /\ filter I = Normal true) /\
  (forall I, exists filter, query VNull = Normal filter /\ filter I = Normal true).
Proof.
  repeat split; intros; try reflexivity;
    eexists; split; reflexivity.
Qed.


(** *** The loops of the two parsers, as equations *)

Lemma parseCondition_obj (propName : string) (props : list (string * value))
    (acc : list predicate) :
  parseCondition propName (VObj props) acc = conditionLoop propName props acc.
Proof.
  simpl. revert acc.
  induction props as [|[k v] props IH]; intros acc; simpl; [reflexivity|].
  destruct (conditionStep (parseCondition propName) propName k v acc); simpl; auto.
Qed.

Lemma parseQueryCondition_obj (props : list (string * value)) :
  parseQueryCondition (VObj props) = queryLoop props [].
Proof.
  simpl. generalize (@nil predicate).
  induction props as [|[k v] props IH]; intros acc; simpl; [reflexivity|].
  destruct (queryStep parseQueryCondition k v acc); simpl; auto.
Qed.


(** *** Nested records *)

Lemma parseQueryCondition_nested (key : string) (conditionValue : value)
    (sub : list predicate) :
  logicalKey key = false ->
  isCondition conditionValue = false ->
  typeof conditionValue = "object" ->
  ToBoolean conditionValue = true ->
  parseQueryCondition conditionValue = Normal sub ->
  parseQueryCondition (VObj [(key, conditionValue)]) = Normal [nestedPredicate key sub].
Proof.
  intros Hkey Hcond Htype Htruthy Hsub.
  rewrite parseQueryCondition_obj. simpl. unfold queryStep.
  rewrite Hkey, Hcond, Htype, Htruthy, Hsub. reflexivity.
Qed.

(** C8: the predicate of a nested record fails when the item's field is
    undefined or null, and otherwise is true exactly when every compiled
    sub-predicate holds on the field's value. *)
Theorem C8_nested_record_predicate (key : string) (conditionValue : value)
    (sub : list predicate) :
  logicalKey key = false ->
  isCondition conditionValue = false ->
  typeof conditionValue = "object" ->
  ToBoolean conditionValue = true ->
  parseQueryCondition conditionValue = Normal sub ->
  exists p,
    parseQueryCondition (VObj [(key, conditionValue)]) = Normal [p] /\
    forall item v, get item key = Normal v ->
      ((v = VUndefined \/ v = VNull) -> p item = Normal (VBool false)) /\
      (v <> VUndefined -> v <> VNull ->
         p item = (ok <- every sub v ;; Normal (VBool ok)) /\
         (p item = Normal (VBool true) <-> Forall (fun fn => holds fn v) sub)).
Proof.
  intros Hkey Hcond Htype Htruthy Hsub.
  exists (nestedPredicate key sub). split.
  - apply parseQueryCondition_nested; assumption.
  - intros item v Hget. unfold nestedPredicate. rewrite Hget. simpl. split.
    + intros [-> | ->]; reflexivity.
    + intros Hu Hn.
      assert (E : strict_equal v VUndefined || strict_equal v VNull = false)
        by (destruct v; try reflexivity; congruence).
      rewrite E. split; [reflexivity|].
      rewrite <- every_true_iff.
      destruct (every sub v) as [[|]|e]; simpl; split; congruence.
Qed.

(** *** Operator conditions whose operands are all undefined *)

(** Every key of [keys] begins with a dollar sign, and no index key does. *)
Lemma index_key_not_dollar (i : nat) (s : string) : index_key i <> String "$" s.
Proof.
  unfold index_key. destruct (Nat.to_uint i); simpl; discriminate.
Qed.

Ltac fall_through k :=
  repeat match goal with
         | |- context [String.eqb k ?s] =>
             let E := fresh "E" in
             destruct (String.eqb_spec k s) as [E|E];
             [ try (exfalso; subst k; simpl in *; tauto) | ]
         end.

Lemma conditionStep_unrecognized rec (propName k : string) (v : value)
    (acc : list predicate) :
  ~ In k keys -> conditionStep rec propName k v acc = Normal acc.
Proof.
  intros Hk. unfold conditionStep.
  destruct v; try reflexivity; fall_through k; reflexivity.
Qed.

(** The justification of [parseCondition] on arrays and strings: under an
    index key, a turn of its loop pushes nothing. *)
Lemma conditionStep_index_key rec (propName : string) (i : nat) (v : value)
    (acc : list predicate) :
  conditionStep rec propName (index_key i) v acc = Normal acc.
Proof.
  apply conditionStep_unrecognized. unfold keys. simpl.
  intros K. repeat destruct K as [K|K]; try (symmetry in K; revert K; apply index_key_not_dollar).
  exact K.
Qed.

Lemma conditionLoop_all_undefined (propName : string) (props : list (string * value))
    (acc : list predicate) :
  (forall k v, In (k, v) props -> In k keys -> v = VUndefined) ->
  conditionLoop propName props acc = Normal acc.
Proof.
  induction props as [|[k v] props IH]; intros Hall; simpl; [reflexivity|].
  assert (Hstep : conditionStep (parseCondition propName) propName k v acc = Normal acc).
  { destruct v; try reflexivity;
      apply conditionStep_unrecognized; intros Hin;
      specialize (Hall k _ (or_introl eq_refl) Hin); discriminate Hall. }
  rewrite Hstep. simpl. apply IH. intros k' v' Hin. apply Hall. right; exact Hin.
Qed.

Lemma isCondition_object (arg : value) :
  isCondition arg =
  match arg with
  | VDate _ | VRegExp _ | VArr _ | VObj _ => existsb (fun key => has_property arg key) keys
  | _ => false
  end.
Proof.
  destruct arg; unfold isCondition; try reflexivity;
    destruct (ToBoolean _); reflexivity.
Qed.

(** C9: a value is an operator condition exactly when it is a non-null
    object on which one of the sixteen operator keys is present, whatever
    the key maps to; a field whose operator condition gives every
    recognized operator an undefined operand compiles to no predicate, and
    every item matches. *)
Theorem C9_operator_shape_by_key_presence :
  List.length keys = 16 /\
  (forall arg, isCondition arg = true <->
     typeof arg = "object" /\ arg <> VNull /\
     exists key, In key keys /\ has_property arg key = true) /\
  (forall key, In key keys -> isCondition (VObj [(key, VUndefined)]) = true) /\
  (forall propName props,
     logicalKey propName = false ->
     isCondition (VObj props) = true ->
     (forall k v, In (k, v) props -> In k keys -> v = VUndefined) ->
     parseQueryCondition (VObj [(propName, VObj props)]) = Normal [] /\
     forall item, matchQueryCondition item (VObj [(propName, VObj props)]) = Normal true).
Proof.
  split; [reflexivity|]. split; [|split].
  - intros arg. rewrite isCondition_object. split.
    + intros E.
      destruct arg; try discriminate E;
        (split; [reflexivity|]; split; [discriminate|]);
        apply existsb_exists in E; exact E.
    + intros [Ht [Hn Hex]].
      destruct arg; try discriminate Ht; try congruence;
        apply existsb_exists; exact Hex.
  - intros key Hin. rewrite isCondition_object.
    apply existsb_exists. exists key. split; [exact Hin|].
    simpl. rewrite String.eqb_refl. reflexivity.
  - intros propName props Hkey Hcond Hall.
    assert (E : parseQueryCondition (VObj [(propName, VObj props)]) = Normal []).
    { rewrite parseQueryCondition_obj. simpl. unfold queryStep.
      rewrite Hkey, Hcond, parseCondition_obj.
      rewrite (conditionLoop_all_undefined _ _ _ Hall). reflexivity. }
    split; [exact E|].
    intros item. unfold matchQueryCondition. rewrite E. reflexivity.
Qed.


(** The justification of [parseQueryCondition] on strings: under an index
    key, a one-character string is compared as a literal. *)
Lemma logicalKey_index_key (i : nat) : logicalKey (index_key i) = false.
Proof.
  unfold logicalKey.
  repeat match goal with
         | |- context [String.eqb (index_key i) ?s] =>
             destruct (String.eqb_spec (index_key i) s) as [E|E];
             [ exfalso; revert E; apply index_key_not_dollar | clear E ]
         end.
  reflexivity.
Qed.

Lemma queryStep_char rec (i : nat) (c : string) (acc : list predicate) :
  queryStep rec (index_key i) (VStr c) acc
  = Normal (acc ++ [literalPredicate (index_key i) (VStr c)]).
Proof.
  unfold queryStep. rewrite logicalKey_index_key, isCondition_object. reflexivity.
Qed.

(** Visiting the entries of a record is visiting its keys and reading
    each of them, the keys being distinct. *)
Lemma lookup_entry (props : list (string * value)) (k : string) (v : value) :
  NoDup (map fst props) -> In (k, v) props -> get (VObj props) k = Normal v.
Proof.
  unfold get. induction props as [|[k' v'] props IH]; intros Hnd Hin; simpl.
  - destruct Hin.
  - inversion Hnd as [|? ? Hnotin Hnd']; subst.
    destruct Hin as [E|Hin].
    + injection E as -> ->. rewrite String.eqb_refl. reflexivity.
    + destruct (String.eqb_spec k k') as [->|Hne].
      * exfalso. apply Hnotin. apply (in_map fst) in Hin. exact Hin.
      * apply IH; assumption.
Qed.

(** *** A field holding an operator condition *)

Lemma parseQueryCondition_operator (propName : string) (props : list (string * value)) :
  logicalKey propName = false ->
  isCondition (VObj props) = true ->
  parseQueryCondition (VObj [(propName, VObj props)]) = conditionLoop propName props [].
Proof.
  intros Hkey Hcond.
  rewrite parseQueryCondition_obj. simpl. unfold queryStep.
  rewrite Hkey, Hcond, parseCondition_obj.
  destruct (conditionLoop propName props []); reflexivity.
Qed.

(** *** [$match] *)

(** C10: on an item that lacks the field, the predicate of [$match] tests
    the pattern against the text "undefined"; a pattern that matches that
    text therefore succeeds on every such item. *)
Theorem C10_match_tests_the_text_undefined (propName pattern : string) (item : value) :
  regexp_valid pattern = true ->
  get item propName = Normal VUndefined ->
  ToString VUndefined = "undefined" /\
  String.length (ToString VUndefined) = 9 /\
  exists p,
    parseCondition propName (VObj [("$match", VStr pattern)]) [] = Normal [p] /\
    parseCondition propName (VObj [("$match", VRegExp pattern)]) [] = Normal [p] /\
    p item = Normal (VBool (regexp_test pattern (ToString VUndefined))) /\
    (logicalKey propName = false ->
     regexp_test pattern "undefined" = true ->
     matchQueryCondition item (VObj [(propName, VObj [("$match", VStr pattern)])])
     = Normal true).
Proof.
  intros Hvalid Hget.
  assert (Hparse : parseCondition propName (VObj [("$match", VStr pattern)]) []
                   = Normal [matchPredicate propName (VRegExp pattern)]).
  { rewrite parseCondition_obj. simpl. rewrite Hvalid. reflexivity. }
  assert (Hrun : matchPredicate propName (VRegExp pattern) item
                 = Normal (VBool (regexp_test pattern "undefined"))).
  { unfold matchPredicate. rewrite Hget. reflexivity. }
  split; [reflexivity|]. split; [reflexivity|].
  exists (matchPredicate propName (VRegExp pattern)).
  split; [exact Hparse|]. split; [reflexivity|]. split; [exact Hrun|].
  intros Hkey Htest. unfold matchQueryCondition.
  rewrite parseQueryCondition_operator by (exact Hkey || reflexivity).
  rewrite <- parseCondition_obj, Hparse. unfold bind at 1. unfold every.
  rewrite Hrun. simpl. rewrite Htest. reflexivity.
Qed.

(** *** [$dateBefore] and [$dateAfter] *)

(** C6, amended: with an operand that is a Date or a number, and a field
    value that is a Date, a number or a string, both sides are turned into
    timestamps and compared with [<] (before) or [>] (after). *)
Theorem C6_date_predicates_compare_timestamps (propName : string)
    (operand item v : value) :
  dateOrNumber operand = true ->
  dateNumberOrString v = true ->
  get item propName = Normal v ->
  exists before after,
    parseCondition propName (VObj [("$dateBefore", operand)]) [] = Normal [before] /\
    parseCondition propName (VObj [("$dateAfter", operand)]) [] = Normal [after] /\
    before item = Normal (VBool (js_lt (VNum (timestamp v)) (VNum (timestamp operand)))) /\
    after item = Normal (VBool (js_gt (VNum (timestamp v)) (VNum (timestamp operand)))).
Proof.
  intros Hop Hv Hget.
  exists (dateBeforePredicate propName (dateOperand operand)),
         (dateAfterPredicate propName (dateOperand operand)).
  repeat split.
  - rewrite parseCondition_obj. destruct operand; try discriminate Hop; reflexivity.
  - rewrite parseCondition_obj. destruct operand; try discriminate Hop; reflexivity.
  - unfold dateBeforePredicate. rewrite Hget. simpl.
    destruct operand; try discriminate Hop;
      destruct v; try discriminate Hv; reflexivity.
  - unfold dateAfterPredicate. rewrite Hget. simpl.
    destruct operand; try discriminate Hop;
      destruct v; try discriminate Hv; reflexivity.
Qed.

(** *** [$in] and [$notIn] *)

(** C3, at the failing inputs: when the field value is a falsy candidate
    of the array (0, the empty string, false), [includes] returns the
    candidate found, which is falsy: [$in] does not match and [$notIn]
    does. *)
Theorem C3_in_misses_falsy_candidates (c : value) :
  ToBoolean c = false ->
  deepEqual c c = true ->
  matchQueryCondition (VObj [("status", c)]) (VObj [("status", VObj [("$in", VArr [c])])])
  = Normal false /\
  matchQueryCondition (VObj [("status", c)]) (VObj [("status", VObj [("$notIn", VArr [c])])])
  = Normal true.
Proof.
  intros Hfalsy Hrefl. unfold matchQueryCondition.
  rewrite !parseQueryCondition_operator by reflexivity.
  split; simpl; unfold inPredicate, notInPredicate, array_find; simpl;
    rewrite Hrefl; simpl; rewrite Hfalsy; reflexivity.
Qed.

(** What [$in] computes: it matches when the first candidate that
    deep-equals the field value is truthy. *)
Lemma in_matches_first_found (propName : string) (candidates : list value)
    (item v : value) :
  get item propName = Normal v ->
  (holds (inPredicate propName (VArr candidates)) item <->
   exists c, find (fun x => deepEqual x v) candidates = Some c /\ ToBoolean c = true).
Proof.
  intros Hget. unfold holds, inPredicate, includes, array_find. rewrite Hget. simpl.
  destruct (find (fun x => deepEqual x v) candidates) as [c|]; split.
  - intros [r [E Hr]]. injection E as E. subst r. exists c. split; [reflexivity | exact Hr].
  - intros [c' [E Hc]]. injection E as E. subst c'. exists c. split; [reflexivity | exact Hc].
  - intros [r [E Hr]]. injection E as E. subst r. discriminate Hr.
  - intros [c' [E _]]. discriminate E.
Qed.

(** *** [$contains] and [$notContains] *)

Lemma find_existsb (g : value -> bool) (l : list value) :
  existsb g l = match find g l with Some _ => true | None => false end.
Proof.
  induction l as [|x l IH]; simpl; [reflexivity|].
  destruct (g x); simpl; [reflexivity | exact IH].
Qed.

Lemma array_find_truthy (g : value -> bool) (elems : list value) :
  Forall (fun x => ToBoolean x = true) elems ->
  ToBoolean (array_find g elems) = existsb g elems.
Proof.
  intros Htruthy. rewrite find_existsb. unfold array_find.
  destruct (find g elems) as [x|] eqn:Ef; [|reflexivity].
  apply find_some in Ef. destruct Ef as [Hin _].
  rewrite Forall_forall in Htruthy. apply Htruthy, Hin.
Qed.

Lemma includesAll_truthy_array (elems conds : list value) :
  Forall (fun x => ToBoolean x = true) elems ->
  includesAll (VArr elems) conds
  = Normal (VBool (forallb (fun c => existsb (fun x => deepEqual x c) elems) conds)).
Proof.
  intros Htruthy. induction conds as [|c conds IH]; simpl; [reflexivity|].
  rewrite (array_find_truthy _ _ Htruthy).
  destruct (existsb (fun x => deepEqual x c) elems); simpl; [exact IH | reflexivity].
Qed.

Lemma includesNone_truthy_array (elems conds : list value) :
  Forall (fun x => ToBoolean x = true) elems ->
  includesNone (VArr elems) conds
  = Normal (VBool (forallb (fun c => negb (existsb (fun x => deepEqual x c) elems)) conds)).
Proof.
  intros Htruthy. induction conds as [|c conds IH]; simpl; [reflexivity|].
  rewrite (array_find_truthy _ _ Htruthy).
  destruct (existsb (fun x => deepEqual x c) elems); simpl; [reflexivity | exact IH].
Qed.

Lemma includes_string (text : string) (c : value) :
  isRegExp c = false ->
  includes (VStr text) c = Normal (VBool (occursIn (ToString c) text)).
Proof.
  intros Hc. destruct c; try discriminate Hc; reflexivity.
Qed.

Lemma includesAll_string (text : string) (conds : list value) :
  Forall (fun c => isRegExp c = false) conds ->
  includesAll (VStr text) conds
  = Normal (VBool (forallb (fun c => occursIn (ToString c) text) conds)).
Proof.
  induction 1 as [|c conds Hc F IH]; [reflexivity|].
  cbn [includesAll forallb]. rewrite (includes_string text c Hc). cbn [bind ToBoolean].
  destruct (occursIn (ToString c) text); [exact IH | reflexivity].
Qed.

Lemma includesNone_string (text : string) (conds : list value) :
  Forall (fun c => isRegExp c = false) conds ->
  includesNone (VStr text) conds
  = Normal (VBool (forallb (fun c => negb (occursIn (ToString c) text)) conds)).
Proof.
  induction 1 as [|c conds Hc F IH]; [reflexivity|].
  cbn [includesNone forallb]. rewrite (includes_string text c Hc). cbn [bind ToBoolean].
  destruct (occursIn (ToString c) text); [reflexivity | exact IH].
Qed.

(** C2, amended: on a field value that is an array or a string, with a
    single operand [$notContains] returns the negation of what
    [$contains] returns.  With a sequence operand the two are not
    complements: on an array whose elements are all truthy, [$contains]
    is true exactly when every operand element deep-equals some element
    of the array and [$notContains] exactly when no operand element
    deep-equals an element; on a string, with operand elements that are
    not regular expressions, [$contains] is true exactly when the text
    of every operand element occurs in the string and [$notContains]
    exactly when none occurs. *)
Theorem C2_notContains_against_contains (propName : string) (item v : value) :
  arrayOrString v = true ->
  get item propName = Normal v ->
  (forall conditionValue, isArray conditionValue = false ->
     notContainsPredicate propName conditionValue item
     = (r <- containsPredicate propName conditionValue item ;; Normal (js_not r))) /\
  (forall elems conds,
     v = VArr elems ->
     Forall (fun x => ToBoolean x = true) elems ->
     containsPredicate propName (VArr conds) item
     = Normal (VBool (forallb (fun c => existsb (fun x => deepEqual x c) elems) conds)) /\
     notContainsPredicate propName (VArr conds) item
     = Normal (VBool (forallb (fun c => negb (existsb (fun x => deepEqual x c) elems))
                        conds))) /\
  (forall text conds,
     v = VStr text ->
     Forall (fun c => isRegExp c = false) conds ->
     containsPredicate propName (VArr conds) item
     = Normal (VBool (forallb (fun c => occursIn (ToString c) text) conds)) /\
     notContainsPredicate propName (VArr conds) item
     = Normal (VBool (forallb (fun c => negb (occursIn (ToString c) text)) conds))).
Proof.
  intros Hv Hget. split; [|split].
  - intros conditionValue Hsingle.
    unfold notContainsPredicate, containsPredicate. rewrite Hget. simpl.
    destruct v; try discriminate Hv;
      destruct conditionValue; try discriminate Hsingle; reflexivity.
  - intros elems conds -> Htruthy.
    unfold notContainsPredicate, containsPredicate. rewrite Hget. cbn [bind].
    split; [apply includesAll_truthy_array | apply includesNone_truthy_array]; exact Htruthy.
  - intros text conds -> Hconds.
    unfold notContainsPredicate, containsPredicate. rewrite Hget. cbn [bind].
    split; [apply includesAll_string | apply includesNone_string]; exact Hconds.
Qed.

(** On a field value that is neither an array nor a string both
    predicates return false. *)
Lemma contains_other_field_types (propName : string) (conditionValue item v : value) :
  arrayOrString v = false ->
  get item propName = Normal v ->
  containsPredicate propName conditionValue item = Normal (VBool false) /\
  notContainsPredicate propName conditionValue item = Normal (VBool false).
Proof.
  intros Hv Hget. unfold notContainsPredicate, containsPredicate. rewrite Hget. simpl.
  destruct v; try discriminate Hv; split; reflexivity.
Qed.


(** *** Field-scoped [$or], [$and], [$nor] *)

Lemma conditionStep_acc rec (propName k : string) (v : value) (acc : list predicate) :
  conditionStep rec propName k v acc
  = (r <- conditionStep rec propName k v [] ;; Normal (acc ++ r)).
Proof.
  unfold conditionStep.
  destruct v; cbv beta iota zeta; rewrite ?app_nil_r; try reflexivity;
    repeat match goal with
           | |- context [String.eqb k ?s] =>
               destruct (String.eqb k s);
               [ try solve [ reflexivity
                           | destruct (forEachCondition rec _); reflexivity
                           | destruct (matchOperand _); reflexivity ] | ]
           end;
    simpl; rewrite ?app_nil_r; reflexivity.
Qed.

Lemma conditionLoop_acc (propName : string) (props : list (string * value))
    (acc : list predicate) :
  conditionLoop propName props acc
  = (r <- conditionLoop propName props [] ;; Normal (acc ++ r)).
Proof.
  revert acc. induction props as [|[k v] props IH]; intros acc; simpl.
  - rewrite app_nil_r. reflexivity.
  - rewrite conditionStep_acc.
    destruct (conditionStep (parseCondition propName) propName k v []) as [r|e]; simpl;
      [|reflexivity].
    rewrite (IH (acc ++ r)), (IH r).
    destruct (conditionLoop propName props []) as [r'|e]; simpl; [|reflexivity].
    rewrite app_assoc. reflexivity.
Qed.

(** [forEach] pours the predicates of all the branches into one array. *)
Lemma forEachCondition_concat (propName : string) (branches : list value) :
  forEachCondition (parseCondition propName) (VArr branches)
  = (pss <- branchPredicates propName branches ;; Normal (List.concat pss)).
Proof.
  unfold forEachCondition.
  transitivity (pss <- branchPredicates propName branches ;; Normal ([] ++ List.concat pss));
    [|reflexivity].
  generalize (@nil predicate).
  induction branches as [|b branches IH]; intros acc; simpl.
  - rewrite app_nil_r. reflexivity.
  - assert (E : parseCondition propName b acc
                = (r <- parseCondition propName b [] ;; Normal (acc ++ r))).
    { destruct b; try (simpl; rewrite app_nil_r; reflexivity).
      rewrite !parseCondition_obj. apply conditionLoop_acc. }
    rewrite E.
    destruct (parseCondition propName b []) as [ps|e]; simpl; [|reflexivity].
    rewrite IH.
    destruct (branchPredicates propName branches) as [pss|e]; simpl; [|reflexivity].
    rewrite app_assoc. reflexivity.
Qed.

Lemma firstFalsy_app (ps qs : list predicate) (item : value) :
  firstFalsy (ps ++ qs) item
  = (ok <- every ps item ;; if ok then firstFalsy qs item else Normal (VBool false)).
Proof.
  induction ps as [|p ps IH]; simpl; [reflexivity|].
  destruct (p item) as [r|e]; simpl; [|reflexivity].
  destruct (ToBoolean r); simpl; [exact IH | reflexivity].
Qed.

(** Field-scoped [$and] does treat each branch as an AND: over the
    joined predicates it computes what [$and] computes over the branches. *)
Lemma field_and_branchwise (pss : list (list predicate)) (item : value) :
  andPredicate (List.concat pss) item = andBranches pss item.
Proof.
  unfold andPredicate, andBranches.
  induction pss as [|ps pss IH]; simpl; [reflexivity|].
  rewrite firstFalsy_app.
  destruct (every ps item) as [[|]|e]; simpl; auto.
Qed.

(** Field-scoped [$or] and [$nor] look for one truthy predicate among
    the joined predicates of all the branches. *)
Lemma firstTruthy_found (b : bool) (ps : list predicate) (item : value) :
  firstTruthy b ps item = Normal (VBool b) <->
  exists pre p post, ps = pre ++ p :: post /\
                     Forall (fun q => fails q item) pre /\ holds p item.
Proof.
  induction ps as [|q ps IH]; simpl.
  - split.
    + intros E. destruct b; discriminate E.
    + intros [pre [p [post [E _]]]]. destruct pre; discriminate E.
  - split.
    + intros E. destruct (q item) as [r|e] eqn:Er; simpl in E; [|discriminate].
      destruct (ToBoolean r) eqn:Eb.
      * exists [], q, ps. repeat split; [constructor | exists r; auto].
      * apply IH in E. destruct E as [pre [p [post [-> [Hpre Hp]]]]].
        exists (q :: pre), p, post. repeat split; [|exact Hp].
        constructor; [exists r; auto | exact Hpre].
    + intros [pre [p [post [E [Hpre Hp]]]]].
      destruct pre as [|q' pre]; simpl in E; injection E as -> ->.
      * destruct Hp as [r [Er Eb]]. rewrite Er; simpl. rewrite Eb. reflexivity.
      * inversion Hpre as [|? ? [r [Er Eb]] Hpre']; subst.
        rewrite Er; simpl. rewrite Eb. apply IH. exists pre, p, post. auto.
Qed.

(** C1, at the failing input: with the single branch
    [{$greater: 5, $less: 3}] and the item [{f: 10}], the branch's own AND
    fails, yet field-scoped [$or] passes and [$nor] fails, because the
    operators of the branch are tested one by one. *)
Theorem C1_field_or_tests_operators_one_by_one :
  let branch := VObj [("$greater", num 5); ("$less", num 3)] in
  let item := VObj [("f", num 10)] in
  (exists ps, parseCondition "f" branch [] = Normal ps /\ every ps item = Normal false) /\
  matchQueryCondition item (VObj [("f", VObj [("$or", VArr [branch])])]) = Normal true /\
  matchQueryCondition item (VObj [("f", VObj [("$nor", VArr [branch])])]) = Normal false.
Proof.
  split; [|split].
  - eexists. split; [reflexivity|]. vm_compute. reflexivity.
  - vm_compute. reflexivity.
  - vm_compute. reflexivity.
Qed.

(** *** How many predicates a record compiles to *)

Lemma conditionStep_length rec (propName k : string) (v : value)
    (acc ps : list predicate) :
  conditionStep rec propName k v acc = Normal ps ->
  List.length ps = List.length acc + pushes (k, v).
Proof.
  unfold conditionStep, pushes, recognized, keys. cbv beta iota zeta. simpl fst. simpl snd.
  destruct v; simpl isUndefined; rewrite ?andb_false_r, ?andb_true_r;
    try (intros E; injection E as <-; lia);
    simpl existsb;
    repeat match goal with
           | |- context [String.eqb k ?s] =>
               destruct (String.eqb k s);
               [ simpl orb; rewrite ?orb_true_r;
                 try (destruct (forEachCondition rec _); simpl; [|discriminate]);
                 try (destruct (matchOperand _); simpl; [|discriminate]);
                 intros E; injection E as <-; rewrite length_app; simpl; lia | ]
           end;
    simpl; intros E; injection E as <-; lia.
Qed.

Lemma conditionLoop_length (propName : string) (props : list (string * value))
    (acc ps : list predicate) :
  conditionLoop propName props acc = Normal ps ->
  List.length ps = List.length acc + list_sum (map pushes props).
Proof.
  revert acc. induction props as [|[k v] props IH]; intros acc; simpl.
  - intros E; injection E as <-. lia.
  - destruct (conditionStep (parseCondition propName) propName k v acc) as [acc'|e] eqn:Es;
      simpl; [|discriminate].
    intros E. apply IH in E. apply conditionStep_length in Es. lia.
Qed.

Lemma queryStep_length (k : string) (v : value) (acc ps : list predicate) :
  queryStep parseQueryCondition k v acc = Normal ps ->
  List.length ps = List.length acc + contribution (k, v).
Proof.
  unfold queryStep, contribution. simpl fst. simpl snd.
  destruct (logicalKey k).
  - destruct (mapConditions parseQueryCondition v); simpl; [|discriminate].
    destruct (k =? "$and"); [|destruct (k =? "$or")];
      intros E; injection E as <-; rewrite length_app; simpl; lia.
  - destruct (isCondition v).
    + destruct v; try (simpl; intros E; injection E as <-; lia).
      rewrite parseCondition_obj. apply conditionLoop_length.
    + destruct ((typeof v =? "object") && ToBoolean v).
      * destruct (parseQueryCondition v); simpl; [|discriminate].
        intros E; injection E as <-; rewrite length_app; simpl; lia.
      * intros E; injection E as <-; rewrite length_app; simpl; lia.
Qed.

Lemma queryLoop_length (props : list (string * value)) (acc ps : list predicate) :
  queryLoop props acc = Normal ps ->
  List.length ps = List.length acc + list_sum (map contribution props).
Proof.
  revert acc. induction props as [|[k v] props IH]; intros acc; simpl.
  - intros E; injection E as <-. lia.
  - destruct (queryStep parseQueryCondition k v acc) as [acc'|e] eqn:Es; simpl; [|discriminate].
    intros E. apply IH in E. apply queryStep_length in Es. simpl in *. lia.
Qed.

(** C4, amended: a condition document that compiles yields one predicate
    for each logical key, nested-record key and literal key, and for
    each operator-condition key one predicate per recognized operator
    whose operand is defined. *)
Theorem C4_predicates_per_key (props : list (string * value)) (ps : list predicate) :
  parseQueryCondition (VObj props) = Normal ps ->
  List.length ps = list_sum (map contribution props).
Proof.
  rewrite parseQueryCondition_obj. intros E.
  apply queryLoop_length in E. simpl in E. exact E.
Qed.


(** *** Items that lack the fields a condition names *)

Lemma IsLessThan_undefined_l (x : value) : IsLessThan VUndefined x = None.
Proof. reflexivity. Qed.




Lemma every_without_throw (ps : list predicate) (item : value) :
  Forall (fun p => exists r, p item = Normal r) ps ->
  exists ok, every ps item = Normal ok /\
             (ok = true <-> Forall (fun p => holds p item) ps).
Proof.
  induction 1 as [|p ps [r Er] F [ok [E Hok]]]; simpl.
  - exists true. split; [reflexivity|]. split; auto.
  - rewrite Er. simpl. destruct (ToBoolean r) eqn:Eb.
    + exists ok. split; [exact E|]. rewrite Hok. split.
      * intros Hps. constructor; [exists r; auto | exact Hps].
      * intros Hps. inversion Hps; assumption.
    + exists false. split; [reflexivity|]. split; [discriminate|].
      intros Hps. inversion Hps as [|? ? [r' [Er' Eb']] _]; subst.
      rewrite Er in Er'. injection Er' as <-. congruence.
Qed.


Section AbsentField.
Variable item : value.
Variable propName : string.
Hypothesis absent : get item propName = Normal VUndefined.






End AbsentField.



End Properties.

(** ** Further properties of the compiler, for every host *)

Section FurtherProperties.
Context {H : Host}.

(** *** Compiling once and matching *)

(** X1: the filter built by [query] gives on every item what
    [matchQueryCondition] gives; when [query] throws, compiling the
    condition has thrown, and [matchQueryCondition] throws the same
    exception on every item. *)
Theorem query_filter_is_matchQueryCondition (condition : value) :
  (forall filter, query condition = Normal filter ->
     forall item, filter item = matchQueryCondition item condition) /\
  (forall e, query condition = Throw e ->
     parseQueryCondition condition = Throw e /\
     forall item, matchQueryCondition item condition = Throw e).
Proof.
  unfold query, matchQueryCondition.
  destruct (parseQueryCondition condition) as [ps|e0]; simpl; split.
  - intros filter E item. injection E as <-. reflexivity.
  - intros e E. discriminate E.
  - intros filter E. discriminate E.
  - intros e E. injection E as <-. split; reflexivity.
Qed.

(** *** The keys of a condition are tested from left to right *)

Lemma every_app (ps qs : list predicate) (item : value) :
  every (ps ++ qs) item
  = (ok <- every ps item ;; if ok then every qs item else Normal false).
Proof.
  induction ps as [|p ps IH]; simpl; [reflexivity|].
  destruct (p item) as [r|e]; simpl; [|reflexivity].
  destruct (ToBoolean r); simpl; [exact IH | reflexivity].
Qed.

Lemma parseCondition_acc (propName : string) (condition : value) (acc : list predicate) :
  parseCondition propName condition acc
  = (r <- parseCondition propName condition [] ;; Normal (acc ++ r)).
Proof.
  destruct condition; try (simpl; rewrite app_nil_r; reflexivity).
  rewrite !parseCondition_obj. apply conditionLoop_acc.
Qed.

Lemma queryStep_acc (k : string) (v : value) (acc : list predicate) :
  queryStep parseQueryCondition k v acc
  = (r <- queryStep parseQueryCondition k v [] ;; Normal (acc ++ r)).
Proof.
  unfold queryStep.
  destruct (logicalKey k).
  - destruct (mapConditions parseQueryCondition v); simpl; [|reflexivity].
    destruct (k =? "$and"); [|destruct (k =? "$or")]; reflexivity.
  - destruct (isCondition v); [apply parseCondition_acc|].
    destruct ((typeof v =? "object") && ToBoolean v); [|reflexivity].
    destruct (parseQueryCondition v); reflexivity.
Qed.

Lemma queryLoop_acc (l : list (string * value)) (acc : list predicate) :
  queryLoop l acc = (r <- queryLoop l [] ;; Normal (acc ++ r)).
Proof.
  revert acc. induction l as [|[k v] l IH]; intros acc; simpl.
  - rewrite app_nil_r. reflexivity.
  - rewrite queryStep_acc.
    destruct (queryStep parseQueryCondition k v []) as [r|e]; simpl; [|reflexivity].
    rewrite (IH (acc ++ r)), (IH r).
    destruct (queryLoop l []) as [r'|e]; simpl; [|reflexivity].
    rewrite app_assoc. reflexivity.
Qed.

Lemma queryLoop_app (l l' : list (string * value)) (acc : list predicate) :
  queryLoop (l ++ l') acc = (r <- queryLoop l acc ;; queryLoop l' r).
Proof.
  revert acc. induction l as [|[k v] l IH]; intros acc; simpl; [reflexivity|].
  destruct (queryStep parseQueryCondition k v acc); simpl; [apply IH | reflexivity].
Qed.

(** X2: when two groups of keys both compile, matching the record that
    holds the first group followed by the second is matching the first
    and, only if it matches, the second. *)
Theorem keys_are_anded_left_to_right (props props' : list (string * value))
    (ps ps' : list predicate) (item : value) :
  parseQueryCondition (VObj props) = Normal ps ->
  parseQueryCondition (VObj props') = Normal ps' ->
  parseQueryCondition (VObj (props ++ props')) = Normal (ps ++ ps') /\
  matchQueryCondition item (VObj (props ++ props'))
  = (ok <- matchQueryCondition item (VObj props) ;;
     if ok then matchQueryCondition item (VObj props') else Normal false).
Proof.
  intros E E'.
  assert (Eapp : parseQueryCondition (VObj (props ++ props')) = Normal (ps ++ ps')).
  { rewrite parseQueryCondition_obj in *.
    rewrite queryLoop_app, E. simpl. rewrite queryLoop_acc, E'. reflexivity. }
  split; [exact Eapp|].
  unfold matchQueryCondition. rewrite Eapp, E, E'. simpl. apply every_app.
Qed.

(** *** Document-level [$and], [$or], [$nor] *)

Lemma mapConditions_Forall2 (bs : list value) (pss : list (list predicate)) :
  mapConditions parseQueryCondition (VArr bs) = Normal pss <->
  Forall2 (fun b ps => parseQueryCondition b = Normal ps) bs pss.
Proof.
  unfold mapConditions. revert pss.
  induction bs as [|b bs IH]; intros pss; simpl.
  - split.
    + intros E. injection E as <-. constructor.
    + intros F. inversion F. reflexivity.
  - split.
    + intros E. destruct (parseQueryCondition b) as [ps|e] eqn:Eb; simpl in E; [|discriminate].
      match type of E with
      | bind ?c _ = _ => remember c as res eqn:Er in E
      end.
      destruct res as [rest|e]; simpl in E; [|discriminate].
      injection E as <-. symmetry in Er. constructor; [exact Eb | apply IH; exact Er].
    + intros F. inversion F as [|? ps ? rest Eb Fr]; subst.
      rewrite Eb. simpl. apply IH in Fr. rewrite Fr. reflexivity.
Qed.

Lemma parseQueryCondition_and (v : value) :
  parseQueryCondition (VObj [("$and", v)])
  = (cs <- mapConditions parseQueryCondition v ;; Normal [andBranches cs]).
Proof.
  rewrite parseQueryCondition_obj. simpl. unfold queryStep. simpl.
  destruct (mapConditions parseQueryCondition v); reflexivity.
Qed.

Lemma parseQueryCondition_or (v : value) :
  parseQueryCondition (VObj [("$or", v)])
  = (cs <- mapConditions parseQueryCondition v ;; Normal [orBranches cs]).
Proof.
  rewrite parseQueryCondition_obj. simpl. unfold queryStep. simpl.
  destruct (mapConditions parseQueryCondition v); reflexivity.
Qed.

Lemma parseQueryCondition_nor (v : value) :
  parseQueryCondition (VObj [("$nor", v)])
  = (cs <- mapConditions parseQueryCondition v ;; Normal [norBranches cs]).
Proof.
  rewrite parseQueryCondition_obj. simpl. unfold queryStep. simpl.
  destruct (mapConditions parseQueryCondition v); reflexivity.
Qed.

Lemma norBranches_negates_orBranches (cs : list (list predicate)) (item : value) :
  norBranches cs item = (r <- orBranches cs item ;; Normal (js_not r)).
Proof.
  unfold norBranches, orBranches.
  induction cs as [|ps cs IH]; simpl; [reflexivity|].
  destruct (every ps item) as [[|]|e]; simpl; [reflexivity | exact IH | reflexivity].
Qed.

(** X3: [$nor] is the negation of [$or], for every operand and every
    item: the two conditions throw together, and otherwise exactly one of
    them matches. *)
Theorem nor_negates_or (v item : value) :
  matchQueryCondition item (VObj [("$nor", v)])
  = (ok <- matchQueryCondition item (VObj [("$or", v)]) ;; Normal (negb ok)).
Proof.
  unfold matchQueryCondition.
  rewrite parseQueryCondition_nor, parseQueryCondition_or.
  destruct (mapConditions parseQueryCondition v) as [cs|e]; simpl; [|reflexivity].
  rewrite norBranches_negates_orBranches.
  destruct (orBranches cs item) as [r|e] eqn:E; simpl; [|reflexivity].
  destruct (ToBoolean r); reflexivity.
Qed.

Lemma allBranches_true_iff (cs : list (list predicate)) (item : value) :
  allBranches cs item = Normal (VBool true) <->
  Forall (fun ps => every ps item = Normal true) cs.
Proof.
  induction cs as [|ps cs IH]; simpl.
  - split; auto.
  - split.
    + intros E. destruct (every ps item) as [[|]|e] eqn:Ep; simpl in E; try discriminate E.
      constructor; [exact Ep | apply IH; exact E].
    + intros F. inversion F as [|? ? Ep F']; subst.
      rewrite Ep. simpl. apply IH; exact F'.
Qed.

Lemma allBranches_boolean (cs : list (list predicate)) (item : value) (r : value) :
  allBranches cs item = Normal r -> exists ok, r = VBool ok.
Proof.
  induction cs as [|ps cs IH]; simpl.
  - intros E. injection E as <-. eauto.
  - destruct (every ps item) as [[|]|e]; simpl; try discriminate.
    + exact IH.
    + intros E. injection E as <-. eauto.
Qed.

(** X4: a document-level [$and] over an array of conditions matches an
    item exactly when every condition of the array matches it; on the
    empty array it matches every item. *)
Theorem and_matches_iff_all_match (bs : list value) (item : value) :
  matchQueryCondition item (VObj [("$and", VArr bs)]) = Normal true <->
  Forall (fun b => matchQueryCondition item b = Normal true) bs.
Proof.
  unfold matchQueryCondition at 1. rewrite parseQueryCondition_and. split.
  - destruct (mapConditions parseQueryCondition (VArr bs)) as [cs|e] eqn:Ec; simpl;
      [|discriminate].
    apply mapConditions_Forall2 in Ec.
    unfold andBranches.
    destruct (allBranches cs item) as [r|e] eqn:Ea; simpl; [|discriminate].
    destruct (allBranches_boolean _ _ _ Ea) as [[|] ->]; simpl; [|discriminate].
    intros _. apply allBranches_true_iff in Ea.
    clear -Ec Ea. induction Ec as [|b ps bs cs Eb Ec IH]; [constructor|].
    inversion Ea as [|? ? Ep Ea']; subst.
    constructor; [|apply IH; exact Ea'].
    unfold matchQueryCondition. rewrite Eb. exact Ep.
  - intros F.
    assert (Hcs : exists cs,
               Forall2 (fun b ps => parseQueryCondition b = Normal ps) bs cs /\
               Forall (fun ps => every ps item = Normal true) cs).
    { clear -F. induction F as [|b bs Hb F IH].
      - exists []. split; constructor.
      - destruct IH as [cs [F2 Fa]].
        unfold matchQueryCondition in Hb.
        destruct (parseQueryCondition b) as [ps|e] eqn:Eb; simpl in Hb; [|discriminate].
        exists (ps :: cs). split; constructor; assumption. }
    destruct Hcs as [cs [F2 Fa]].
    apply mapConditions_Forall2 in F2. rewrite F2. simpl.
    apply allBranches_true_iff in Fa. unfold andBranches. rewrite Fa. reflexivity.
Qed.

Lemma firstBranch_found (cs : list (list predicate)) (item : value) :
  firstBranch true cs item = Normal (VBool true) <->
  exists pre ps post,
    cs = pre ++ ps :: post /\
    Forall (fun qs => every qs item = Normal false) pre /\
    every ps item = Normal true.
Proof.
  induction cs as [|qs cs IH]; simpl.
  - split; [discriminate|].
    intros [pre [ps [post [E _]]]]. destruct pre; discriminate E.
  - split.
    + intros E. destruct (every qs item) as [[|]|e] eqn:Eq; simpl in E; [| |discriminate].
      * exists [], qs, cs. repeat split; [constructor | exact Eq].
      * apply IH in E. destruct E as [pre [ps [post [-> [Hpre Hps]]]]].
        exists (qs :: pre), ps, post. repeat split; [|exact Hps].
        constructor; assumption.
    + intros [pre [ps [post [E [Hpre Hps]]]]].
      destruct pre as [|q' pre]; simpl in E; injection E as -> ->.
      * rewrite Hps. reflexivity.
      * inversion Hpre as [|? ? Eq Hpre']; subst.
        rewrite Eq. simpl. apply IH. exists pre, ps, post. auto.
Qed.

Lemma firstBranch_boolean (b : bool) (cs : list (list predicate)) (item r : value) :
  firstBranch b cs item = Normal r -> exists ok, r = VBool ok.
Proof.
  induction cs as [|ps cs IH]; simpl.
  - intros E. injection E as <-. eauto.
  - destruct (every ps item) as [[|]|e]; simpl; try discriminate.
    + intros E. injection E as <-. eauto.
    + exact IH.
Qed.

(** X5: a document-level [$or] over an array of conditions matches an
    item exactly when every condition of the array compiles and some
    condition matches the item, those before it in the array having
    returned false; on the empty array it matches nothing. *)
Theorem or_matches_iff_first_match (bs : list value) (item : value) :
  matchQueryCondition item (VObj [("$or", VArr bs)]) = Normal true <->
  Forall (fun b => exists ps, parseQueryCondition b = Normal ps) bs /\
  exists pre b post,
    bs = pre ++ b :: post /\
    Forall (fun c => matchQueryCondition item c = Normal false) pre /\
    matchQueryCondition item b = Normal true.
Proof.
  unfold matchQueryCondition at 1. rewrite parseQueryCondition_or. split.
  - destruct (mapConditions parseQueryCondition (VArr bs)) as [cs|e] eqn:Ec; simpl;
      [|discriminate].
    apply mapConditions_Forall2 in Ec. unfold orBranches.
    destruct (firstBranch true cs item) as [r|e] eqn:Ef; simpl; [|discriminate].
    destruct (firstBranch_boolean _ _ _ _ Ef) as [[|] ->]; simpl; [|discriminate].
    intros _. split.
    + clear -Ec. induction Ec; constructor; eauto.
    + apply firstBranch_found in Ef.
      destruct Ef as [cpre [ps [cpost [-> [Hpre Hps]]]]].
      apply Forall2_app_inv_r in Ec.
      destruct Ec as [pre [tl [Fpre [Ftl ->]]]].
      inversion Ftl as [|b ? post ? Eb Fpost]; subst.
      exists pre, b, post. split; [reflexivity|]. split.
      * clear -Fpre Hpre. induction Fpre as [|c qs pre cpre Eq Fpre IH]; [constructor|].
        inversion Hpre as [|? ? Hq Hpre']; subst.
        constructor; [|apply IH; exact Hpre'].
        unfold matchQueryCondition. rewrite Eq. exact Hq.
      * unfold matchQueryCondition. rewrite Eb. exact Hps.
  - intros [Hall [pre [b [post [-> [Hpre Hb]]]]]].
    assert (Hcs : forall l, Forall (fun b => exists ps, parseQueryCondition b = Normal ps) l ->
                  exists cs, Forall2 (fun b ps => parseQueryCondition b = Normal ps) l cs).
    { clear. intros l F. induction F as [|c l [ps Ec] F [cs IH]].
      - exists []. constructor.
      - exists (ps :: cs). constructor; assumption. }
    destruct (Hcs _ Hall) as [cs F2].
    pose proof F2 as Emap. apply mapConditions_Forall2 in Emap. rewrite Emap. simpl.
    apply Forall2_app_inv_l in F2.
    destruct F2 as [cpre [ctl [Fpre [Ftl ->]]]].
    inversion Ftl as [|? ps ? cpost Eb Fpost]; subst.
    assert (Ef : firstBranch true (cpre ++ ps :: cpost) item = Normal (VBool true)).
    { apply firstBranch_found. exists cpre, ps, cpost. split; [reflexivity|]. split.
      - clear -Fpre Hpre. induction Fpre as [|c qs pre cpre Eq Fpre IH]; [constructor|].
        inversion Hpre as [|? ? Hq Hpre']; subst.
        constructor; [|apply IH; exact Hpre'].
        unfold matchQueryCondition in Hq. rewrite Eq in Hq. exact Hq.
      - unfold matchQueryCondition in Hb. rewrite Eb in Hb. exact Hb. }
    unfold orBranches. rewrite Ef. reflexivity.
Qed.

(** *** Where the compiler and the predicates throw *)

Lemma logicalKey_cases (k : string) :
  logicalKey k = true -> k = "$or" \/ k = "$nor" \/ k = "$and".
Proof.
  unfold logicalKey. intros E.
  apply orb_prop in E. destruct E as [E|E]; [apply orb_prop in E; destruct E as [E|E]|];
    apply String.eqb_eq in E; auto.
Qed.

(** X6: a condition in which a logical key holds anything but an array
    (undefined and null included) never compiles: the parser throws, so
    does [query], and so does [matchQueryCondition] on every item; the
    exception is a TypeError when the keys before it compile. *)
Theorem logical_key_needs_an_array (pre post : list (string * value))
    (k : string) (v : value) :
  logicalKey k = true ->
  isArray v = false ->
  exists e,
    parseQueryCondition (VObj (pre ++ (k, v) :: post)) = Throw e /\
    query (VObj (pre ++ (k, v) :: post)) = Throw e /\
    (forall item, matchQueryCondition item (VObj (pre ++ (k, v) :: post)) = Throw e) /\
    ((exists ps, parseQueryCondition (VObj pre) = Normal ps) -> e = TypeError).
Proof.
  intros Hk Hv.
  assert (Hstep : forall acc, queryStep parseQueryCondition k v acc = Throw TypeError).
  { intros acc. unfold queryStep. rewrite Hk.
    destruct v; try discriminate Hv; reflexivity. }
  assert (Hparse : exists e,
             parseQueryCondition (VObj (pre ++ (k, v) :: post)) = Throw e /\
             ((exists ps, parseQueryCondition (VObj pre) = Normal ps) -> e = TypeError)).
  { rewrite !parseQueryCondition_obj, queryLoop_app.
    destruct (queryLoop pre []) as [r|e]; simpl.
    - rewrite Hstep. simpl. exists TypeError. split; [reflexivity|]. intros _. reflexivity.
    - exists e. split; [reflexivity|]. intros [ps E]. discriminate E. }
  destruct Hparse as [e [E He]]. exists e.
  unfold query, matchQueryCondition. rewrite E. simpl. auto.
Qed.

Lemma conditionLoop_app (propName : string) (l l' : list (string * value))
    (acc : list predicate) :
  conditionLoop propName (l ++ l') acc
  = (r <- conditionLoop propName l acc ;; conditionLoop propName l' r).
Proof.
  revert acc. induction l as [|[k v] l IH]; intros acc; simpl; [reflexivity|].
  destruct (conditionStep (parseCondition propName) propName k v acc); simpl;
    [apply IH | reflexivity].
Qed.

Lemma lookup_present (k : string) (v : value) (pre post : list (string * value)) :
  exists v', lookup k (pre ++ (k, v) :: post) = Some v'.
Proof.
  induction pre as [|[k' w] pre IH]; simpl.
  - rewrite String.eqb_refl. eauto.
  - destruct (k =? k'); eauto.
Qed.

Lemma isCondition_present (op : string) (v : value) (pre post : list (string * value)) :
  In op keys -> isCondition (VObj (pre ++ (op, v) :: post)) = true.
Proof.
  intros Hin. rewrite isCondition_object. apply existsb_exists.
  exists op. split; [exact Hin|]. simpl.
  destruct (lookup_present op v pre post) as [v' ->]. reflexivity.
Qed.

Lemma logicalKey_recognized (op : string) : logicalKey op = true -> In op keys.
Proof.
  intros E. apply logicalKey_cases in E.
  destruct E as [->|[->| ->]]; simpl; tauto.
Qed.

(** X7: a field whose operator condition gives [$or], [$and] or [$nor]
    a defined operand that is not an array never compiles: the parser
    throws, and [matchQueryCondition] throws on every item; the exception is
    a TypeError when the operators before it compile. *)
Theorem field_logical_operator_needs_an_array (f op : string)
    (pre post : list (string * value)) (v : value) :
  logicalKey f = false ->
  logicalKey op = true ->
  isArray v = false ->
  isUndefined v = false ->
  exists e,
    parseQueryCondition (VObj [(f, VObj (pre ++ (op, v) :: post))]) = Throw e /\
    (forall item,
       matchQueryCondition item (VObj [(f, VObj (pre ++ (op, v) :: post))]) = Throw e) /\
    ((exists ps, parseCondition f (VObj pre) [] = Normal ps) -> e = TypeError).
Proof.
  intros Hf Hop Hv Hdef.
  assert (Hstep : forall acc,
             conditionStep (parseCondition f) f op v acc = Throw TypeError).
  { intros acc. apply logicalKey_cases in Hop.
    destruct Hop as [->|[->| ->]];
      destruct v; try discriminate Hv; try discriminate Hdef; reflexivity. }
  assert (Hparse : exists e,
             parseQueryCondition (VObj [(f, VObj (pre ++ (op, v) :: post))]) = Throw e /\
             ((exists ps, parseCondition f (VObj pre) [] = Normal ps) -> e = TypeError)).
  { rewrite parseQueryCondition_operator
      by (exact Hf || (apply isCondition_present, logicalKey_recognized, Hop)).
    rewrite conditionLoop_app, parseCondition_obj.
    destruct (conditionLoop f pre []) as [r|e]; simpl.
    - rewrite Hstep. simpl. exists TypeError. split; [reflexivity|]. intros _. reflexivity.
    - exists e. split; [reflexivity|]. intros [ps E]. discriminate E. }
  destruct Hparse as [e [E He]]. exists e.
  unfold matchQueryCondition. rewrite E. simpl. auto.
Qed.

(** X8: [$in] and [$notIn] with a defined operand that is neither an array
    nor a string compile to one predicate, and that predicate throws a
    TypeError on every item. *)
Theorem in_operand_neither_array_nor_string (f op : string) (operand : value) :
  logicalKey f = false ->
  op = "$in" \/ op = "$notIn" ->
  arrayOrString operand = false ->
  isUndefined operand = false ->
  exists p,
    parseQueryCondition (VObj [(f, VObj [(op, operand)])]) = Normal [p] /\
    forall item,
      p item = Throw TypeError /\
      matchQueryCondition item (VObj [(f, VObj [(op, operand)])]) = Throw TypeError.
Proof.
  intros Hf Hop Harr Hdef.
  assert (Hin : In op keys) by (destruct Hop as [->| ->]; simpl; tauto).
  assert (Hthrow : forall v, includes operand v = Throw TypeError).
  { intros v. destruct operand; try discriminate Harr; reflexivity. }
  assert (E : exists p,
             parseQueryCondition (VObj [(f, VObj [(op, operand)])]) = Normal [p] /\
             forall item, p item = Throw TypeError).
  { rewrite parseQueryCondition_operator
      by (exact Hf || apply (isCondition_present op operand [] []), Hin).
    destruct Hop as [->| ->].
    - exists (inPredicate f operand). split.
      + destruct operand; try discriminate Hdef; reflexivity.
      + intros item. unfold inPredicate.
        destruct (get item f) as [v|e] eqn:Eg; simpl; [apply Hthrow|].
        destruct item; simpl in Eg; try discriminate Eg;
          try (destruct (f =? "length"); discriminate Eg);
          injection Eg as <-; reflexivity.
    - exists (notInPredicate f operand). split.
      + destruct operand; try discriminate Hdef; reflexivity.
      + intros item. unfold notInPredicate.
        destruct (get item f) as [v|e] eqn:Eg; simpl; [rewrite Hthrow; reflexivity|].
        destruct item; simpl in Eg; try discriminate Eg;
          try (destruct (f =? "length"); discriminate Eg);
          injection Eg as <-; reflexivity. }
  destruct E as [p [Ep Hp]]. exists p. split; [exact Ep|].
  intros item. split; [apply Hp|].
  unfold matchQueryCondition. rewrite Ep. simpl. rewrite Hp. reflexivity.
Qed.

(** X9: [$match] with a string that is not a pattern throws a SyntaxError
    when the condition is compiled; with a defined operand that is neither
    a string nor a regular expression the condition compiles, and
    matching throws a TypeError on every item. *)
Theorem match_operand_errors (f : string) (operand : value) :
  logicalKey f = false ->
  (forall s, operand = VStr s -> regexp_valid s = false ->
     parseQueryCondition (VObj [(f, VObj [("$match", operand)])]) = Throw SyntaxError /\
     forall item,
       matchQueryCondition item (VObj [(f, VObj [("$match", operand)])]) = Throw SyntaxError) /\
  (typeof operand <> "string" ->
   (forall source, operand <> VRegExp source) ->
   isUndefined operand = false ->
   (exists p, parseQueryCondition (VObj [(f, VObj [("$match", operand)])]) = Normal [p]) /\
   forall item,
     matchQueryCondition item (VObj [(f, VObj [("$match", operand)])]) = Throw TypeError).
Proof.
  intros Hf. split.
  - intros s -> Hinvalid.
    assert (E : parseQueryCondition (VObj [(f, VObj [("$match", VStr s)])]) = Throw SyntaxError).
    { rewrite parseQueryCondition_operator by (exact Hf || reflexivity).
      simpl. rewrite Hinvalid. reflexivity. }
    split; [exact E|]. intros item. unfold matchQueryCondition. rewrite E. reflexivity.
  - intros Hstr Hre Hdef.
    assert (E : parseQueryCondition (VObj [(f, VObj [("$match", operand)])])
                = Normal [matchPredicate f operand]).
    { rewrite parseQueryCondition_operator by (exact Hf || reflexivity).
      destruct operand; try discriminate Hdef; try reflexivity.
      exfalso. apply Hstr. reflexivity. }
    split; [eexists; exact E|].
    intros item. unfold matchQueryCondition. rewrite E. simpl.
    unfold matchPredicate.
    destruct operand; try reflexivity.
    exfalso. eapply Hre. reflexivity.
Qed.

(** X10: matching [undefined] or [null] against a condition that compiles
    and whose first key is a field holding a literal or a nested record
    throws a TypeError. *)
Theorem null_item_throws (item : value) (k : string) (v : value)
    (rest : list (string * value)) (ps : list predicate) :
  item = VUndefined \/ item = VNull ->
  logicalKey k = false ->
  isCondition v = false ->
  parseQueryCondition (VObj ((k, v) :: rest)) = Normal ps ->
  matchQueryCondition item (VObj ((k, v) :: rest)) = Throw TypeError.
Proof.
  intros Hitem Hk Hcond E.
  unfold matchQueryCondition. rewrite E. simpl.
  rewrite parseQueryCondition_obj in E. simpl in E.
  assert (Hget : get item k = Throw TypeError) by (destruct Hitem as [->| ->]; reflexivity).
  assert (Hfirst : exists p, queryStep parseQueryCondition k v [] = Normal [p] /\
                             p item = Throw TypeError).
  { unfold queryStep in *. rewrite Hk, Hcond in *.
    destruct ((typeof v =? "object") && ToBoolean v).
    - destruct (parseQueryCondition v) as [sub|e]; simpl in E; [|discriminate E].
      eexists. split; [reflexivity|]. unfold nestedPredicate. rewrite Hget. reflexivity.
    - eexists. split; [reflexivity|]. unfold literalPredicate. rewrite Hget. reflexivity. }
  destruct Hfirst as [p [Ep Hp]]. rewrite Ep in E. simpl in E.
  rewrite queryLoop_acc in E.
  destruct (queryLoop rest []) as [r|e]; simpl in E; [|discriminate E].
  injection E as <-. simpl. rewrite Hp. reflexivity.
Qed.

(** *** What [parseCondition] ignores *)

Lemma recognized_false (k : string) : recognized k = false -> ~ In k keys.
Proof.
  unfold recognized. intros E Hin.
  assert (Ex : existsb (String.eqb k) keys = true).
  { apply existsb_exists. exists k. split; [exact Hin | apply String.eqb_refl]. }
  rewrite Ex in E. discriminate E.
Qed.

Lemma conditionStep_ineffective rec (propName k : string) (v : value)
    (acc : list predicate) :
  effective (k, v) = false -> conditionStep rec propName k v acc = Normal acc.
Proof.
  unfold effective. simpl fst. simpl snd. intros E.
  apply andb_false_iff in E. destruct E as [E|E].
  - apply conditionStep_unrecognized, recognized_false, E.
  - destruct v; try discriminate E. reflexivity.
Qed.

(** X11: entries whose key is not one of the sixteen operators, and
    entries whose operand is undefined, leave no trace: an operator
    condition compiles to what it compiles to once they are removed. *)
Theorem parseCondition_ignores_ineffective_entries (propName : string)
    (props : list (string * value)) (acc : list predicate) :
  parseCondition propName (VObj props) acc
  = parseCondition propName (VObj (filter effective props)) acc.
Proof.
  rewrite !parseCondition_obj. revert acc.
  induction props as [|[k v] props IH]; intros acc; simpl; [reflexivity|].
  destruct (effective (k, v)) eqn:E; simpl.
  - destruct (conditionStep (parseCondition propName) propName k v acc); simpl;
      [apply IH | reflexivity].
  - rewrite (conditionStep_ineffective _ _ _ _ _ E). simpl. apply IH.
Qed.

(** *** Field-scoped [$and], [$or], [$nor], branch by branch *)

Lemma parseQueryCondition_field_and (f : string) (bs : list value)
    (pss : list (list predicate)) :
  logicalKey f = false ->
  branchPredicates f bs = Normal pss ->
  parseQueryCondition (VObj [(f, VObj [("$and", VArr bs)])])
  = Normal [andPredicate (List.concat pss)].
Proof.
  intros Hf E. rewrite parseQueryCondition_operator by (exact Hf || reflexivity).
  change (conditionLoop f [("$and", VArr bs)] [])
    with (acc' <- (conditions <- forEachCondition (parseCondition f) (VArr bs) ;;
                   Normal ([] ++ [andPredicate conditions])) ;;
          Normal acc').
  rewrite forEachCondition_concat, E. reflexivity.
Qed.

Lemma parseQueryCondition_field_or (f : string) (bs : list value)
    (pss : list (list predicate)) :
  logicalKey f = false ->
  branchPredicates f bs = Normal pss ->
  parseQueryCondition (VObj [(f, VObj [("$or", VArr bs)])])
  = Normal [orPredicate (List.concat pss)].
Proof.
  intros Hf E. rewrite parseQueryCondition_operator by (exact Hf || reflexivity).
  change (conditionLoop f [("$or", VArr bs)] [])
    with (acc' <- (conditions <- forEachCondition (parseCondition f) (VArr bs) ;;
                   Normal ([] ++ [orPredicate conditions])) ;;
          Normal acc').
  rewrite forEachCondition_concat, E. reflexivity.
Qed.

Lemma parseQueryCondition_field_nor (f : string) (bs : list value)
    (pss : list (list predicate)) :
  logicalKey f = false ->
  branchPredicates f bs = Normal pss ->
  parseQueryCondition (VObj [(f, VObj [("$nor", VArr bs)])])
  = Normal [norPredicate (List.concat pss)].
Proof.
  intros Hf E. rewrite parseQueryCondition_operator by (exact Hf || reflexivity).
  change (conditionLoop f [("$nor", VArr bs)] [])
    with (acc' <- (conditions <- forEachCondition (parseCondition f) (VArr bs) ;;
                   Normal ([] ++ [norPredicate conditions])) ;;
          Normal acc').
  rewrite forEachCondition_concat, E. reflexivity.
Qed.

(** X12: a field-scoped [$and] whose branches compile matches an item
    exactly when, for every branch, all the predicates of the branch hold
    on the item. *)
Theorem field_and_matches_iff_every_branch (f : string) (bs : list value)
    (pss : list (list predicate)) (item : value) :
  logicalKey f = false ->
  branchPredicates f bs = Normal pss ->
  (matchQueryCondition item (VObj [(f, VObj [("$and", VArr bs)])]) = Normal true <->
   Forall (fun ps => every ps item = Normal true) pss).
Proof.
  intros Hf E. unfold matchQueryCondition.
  rewrite (parseQueryCondition_field_and f bs pss Hf E). simpl.
  rewrite field_and_branchwise. unfold andBranches.
  rewrite <- allBranches_true_iff.
  destruct (allBranches pss item) as [r|e] eqn:Ea; simpl; [|split; discriminate].
  destruct (allBranches_boolean _ _ _ Ea) as [[|] ->]; simpl; split;
    congruence.
Qed.

Lemma firstTruthy_singletons (b : bool) (pss : list (list predicate)) (item : value) :
  Forall (fun ps => List.length ps = 1) pss ->
  firstTruthy b (List.concat pss) item = firstBranch b pss item.
Proof.
  induction 1 as [|ps pss Hlen F IH]; simpl; [reflexivity|].
  destruct ps as [|q [|q' ps]]; try discriminate Hlen. simpl.
  destruct (q item) as [r|e]; simpl; [|reflexivity].
  destruct (ToBoolean r); simpl; [reflexivity | exact IH].
Qed.

(** X13: when every branch of a field-scoped [$or] or [$nor] compiles to
    exactly one predicate, the field-scoped operator computes what the
    document-level operator computes over the branches: [$or] passes when
    some branch holds, [$nor] when none does. *)
Theorem field_or_on_single_operator_branches (f : string) (bs : list value)
    (pss : list (list predicate)) (item : value) :
  logicalKey f = false ->
  branchPredicates f bs = Normal pss ->
  Forall (fun ps => List.length ps = 1) pss ->
  matchQueryCondition item (VObj [(f, VObj [("$or", VArr bs)])])
  = every [orBranches pss] item /\
  matchQueryCondition item (VObj [(f, VObj [("$nor", VArr bs)])])
  = every [norBranches pss] item.
Proof.
  intros Hf E Hone. unfold matchQueryCondition.
  rewrite (parseQueryCondition_field_or f bs pss Hf E).
  rewrite (parseQueryCondition_field_nor f bs pss Hf E).
  unfold orPredicate, norPredicate, orBranches, norBranches. simpl.
  rewrite !firstTruthy_singletons by exact Hone. split; reflexivity.
Qed.

(** *** Negative operators against their positive counterparts *)

(** X14: on a field, with a defined operand, [$notIn] matches exactly
    when [$in] does not, and the two throw together. *)
Theorem notIn_negates_in (f : string) (operand item : value) :
  logicalKey f = false ->
  isUndefined operand = false ->
  matchQueryCondition item (VObj [(f, VObj [("$notIn", operand)])])
  = (ok <- matchQueryCondition item (VObj [(f, VObj [("$in", operand)])]) ;;
     Normal (negb ok)).
Proof.
  intros Hf Hdef. unfold matchQueryCondition.
  rewrite !parseQueryCondition_operator by (exact Hf || reflexivity).
  assert (Ein : conditionLoop f [("$in", operand)] [] = Normal [inPredicate f operand])
    by (destruct operand; try discriminate Hdef; reflexivity).
  assert (Enot : conditionLoop f [("$notIn", operand)] [] = Normal [notInPredicate f operand])
    by (destruct operand; try discriminate Hdef; reflexivity).
  rewrite Ein, Enot. unfold bind at 1 3. unfold every.
  unfold notInPredicate, inPredicate.
  destruct (get item f) as [v|e]; simpl; [|reflexivity].
  destruct (includes operand v) as [r|e]; simpl; [|reflexivity].
  destruct (ToBoolean r); reflexivity.
Qed.

(** X15: on a field, with a defined operand, [$not] matches exactly when
    [$equal] does not, and the two throw together. *)
Theorem not_negates_equal (f : string) (operand item : value) :
  logicalKey f = false ->
  isUndefined operand = false ->
  matchQueryCondition item (VObj [(f, VObj [("$not", operand)])])
  = (ok <- matchQueryCondition item (VObj [(f, VObj [("$equal", operand)])]) ;;
     Normal (negb ok)).
Proof.
  intros Hf Hdef. unfold matchQueryCondition.
  rewrite !parseQueryCondition_operator by (exact Hf || reflexivity).
  assert (Eeq : conditionLoop f [("$equal", operand)] [] = Normal [equalPredicate f operand])
    by (destruct operand; try discriminate Hdef; reflexivity).
  assert (Enot : conditionLoop f [("$not", operand)] [] = Normal [notPredicate f operand])
    by (destruct operand; try discriminate Hdef; reflexivity).
  rewrite Eeq, Enot. unfold bind at 1 3. unfold every.
  unfold notPredicate, equalPredicate.
  destruct (get item f) as [v|e]; simpl; [|reflexivity].
  destruct (deepEqual v operand); reflexivity.
Qed.

(** X16: when every candidate of the array is truthy, [$in] matches
    exactly when some candidate deep-equals the field value, and [$notIn]
    exactly when none does. *)
Theorem in_is_membership_among_truthy_candidates (f : string)
    (candidates : list value) (item v : value) :
  logicalKey f = false ->
  Forall (fun c => ToBoolean c = true) candidates ->
  get item f = Normal v ->
  matchQueryCondition item (VObj [(f, VObj [("$in", VArr candidates)])])
  = Normal (existsb (fun c => deepEqual c v) candidates) /\
  matchQueryCondition item (VObj [(f, VObj [("$notIn", VArr candidates)])])
  = Normal (negb (existsb (fun c => deepEqual c v) candidates)).
Proof.
  intros Hf Htruthy Hget.
  assert (Hfound : ToBoolean (array_find (fun c => deepEqual c v) candidates)
                   = existsb (fun c => deepEqual c v) candidates).
  { rewrite find_existsb. unfold array_find.
    destruct (find (fun c => deepEqual c v) candidates) as [c|] eqn:Ef; [|reflexivity].
    apply find_some in Ef. destruct Ef as [Hin _].
    rewrite Forall_forall in Htruthy. apply Htruthy, Hin. }
  unfold matchQueryCondition.
  rewrite !parseQueryCondition_operator by (exact Hf || reflexivity).
  simpl. unfold inPredicate, notInPredicate. rewrite Hget. simpl.
  rewrite Hfound.
  destruct (existsb (fun c => deepEqual c v) candidates); split; reflexivity.
Qed.

(** *** An array as the value of a field in a condition *)

Lemma index_key_inj (i j : nat) : index_key i = index_key j -> i = j.
Proof.
  unfold index_key. intros E.
  apply Unsigned.to_uint_inj.
  assert (Some (Nat.to_uint i) = Some (Nat.to_uint j)) as E'
    by (rewrite <- !NilEmpty.usu, E; reflexivity).
  injection E' as E'. exact E'.
Qed.

Lemma index_key_not_length (i : nat) : (index_key i =? "length") = false.
Proof.
  apply String.eqb_neq. unfold index_key.
  destruct (Nat.to_uint i); simpl; discriminate.
Qed.

Lemma lookup_index_cons {A : Type} (key : string) (i : nat) (x : A) (l : list A) :
  lookup_index key i (x :: l)
  = if key =? index_key i then Some x else lookup_index key (S i) l.
Proof. reflexivity. Qed.

Lemma lookup_index_dollar {A : Type} (s : string) (i : nat) (l : list A) :
  lookup_index (String "$" s) i l = None.
Proof.
  revert i. induction l as [|x l IH]; intros i; [reflexivity|].
  rewrite lookup_index_cons.
  destruct (String.eqb_spec (String "$" s) (index_key i)) as [E|_]; [|apply IH].
  symmetry in E. exfalso. revert E. apply index_key_not_dollar.
Qed.

Lemma lookup_index_at {A : Type} (pre : list A) (x : A) (post : list A) (j : nat) :
  lookup_index (index_key (j + List.length pre)) j (pre ++ x :: post) = Some x.
Proof.
  revert j. induction pre as [|y pre IH]; intros j.
  - change ([] ++ x :: post) with (x :: post). rewrite lookup_index_cons.
    change (List.length (@nil A)) with 0.
    rewrite Nat.add_0_r, String.eqb_refl. reflexivity.
  - change ((y :: pre) ++ x :: post) with (y :: (pre ++ x :: post)).
    rewrite lookup_index_cons.
    change (List.length (y :: pre)) with (S (List.length pre)).
    destruct (String.eqb_spec (index_key (j + S (List.length pre))) (index_key j)) as [E|_].
    + apply index_key_inj in E. lia.
    + rewrite <- Nat.add_succ_comm. apply IH.
Qed.

Lemma get_array_index (pre : list value) (x : value) (post : list value) :
  get (VArr (pre ++ x :: post)) (index_key (List.length pre)) = Normal x.
Proof.
  unfold get. rewrite index_key_not_length.
  pose proof (lookup_index_at pre x post 0) as E.
  change (0 + List.length pre) with (List.length pre) in E.
  rewrite E. reflexivity.
Qed.

Lemma isCondition_array (elems : list value) : isCondition (VArr elems) = false.
Proof.
  rewrite isCondition_object.
  destruct (existsb (fun key => has_property (VArr elems) key) keys) eqn:E; [|reflexivity].
  apply existsb_exists in E. destruct E as [key [Hin Hp]].
  unfold keys in Hin. simpl in Hin.
  repeat (destruct Hin as [<-|Hin]; [simpl in Hp; rewrite lookup_index_dollar in Hp;
                                      discriminate Hp|]).
  destruct Hin.
Qed.

Lemma queryStep_plain_literal rec (i : nat) (x : value) (acc : list predicate) :
  strict_equal x x = true ->
  queryStep rec (index_key i) x acc = Normal (acc ++ [literalPredicate (index_key i) x]).
Proof.
  intros Hx. unfold queryStep. rewrite logicalKey_index_key, isCondition_object.
  destruct x; try discriminate Hx; reflexivity.
Qed.

Lemma parseQueryCondition_array_of_literals (lits : list value) :
  Forall (fun x => strict_equal x x = true) lits ->
  parseQueryCondition (VArr lits) = Normal (charPredicates 0 lits).
Proof.
  intros Hlits. simpl.
  change (charPredicates 0 lits) with ([] ++ charPredicates 0 lits).
  generalize (@nil predicate). generalize 0.
  induction Hlits as [|x lits Hx Hlits IH]; intros i acc; simpl.
  - rewrite app_nil_r. reflexivity.
  - rewrite (queryStep_plain_literal _ _ _ _ Hx). simpl.
    rewrite IH, <- app_assoc. reflexivity.
Qed.

Lemma every_charPredicates (pre lits extra : list value) :
  Forall (fun x => strict_equal x x = true) lits ->
  every (charPredicates (List.length pre) lits) (VArr (pre ++ lits ++ extra)) = Normal true.
Proof.
  intros Hlits. revert pre.
  induction Hlits as [|x lits Hx Hlits IH]; intros pre; simpl; [reflexivity|].
  unfold literalPredicate at 1. rewrite get_array_index. simpl. rewrite Hx.
  specialize (IH (pre ++ [x])).
  rewrite length_app, Nat.add_1_r, <- app_assoc in IH. exact IH.
Qed.

(** X17: an array is never an operator condition, so an array given for a
    field is compiled as a nested record whose keys are its indices.  An
    array of literals therefore matches every array that begins with the
    same literals, longer arrays included. *)
Theorem array_condition_matches_by_prefix (k : string) (lits extra : list value) :
  logicalKey k = false ->
  Forall (fun x => strict_equal x x = true) lits ->
  isCondition (VArr lits) = false /\
  parseQueryCondition (VObj [(k, VArr lits)])
  = Normal [nestedPredicate k (charPredicates 0 lits)] /\
  matchQueryCondition (VObj [(k, VArr (lits ++ extra))]) (VObj [(k, VArr lits)])
  = Normal true.
Proof.
  intros Hk Hlits.
  assert (E : parseQueryCondition (VObj [(k, VArr lits)])
              = Normal [nestedPredicate k (charPredicates 0 lits)]).
  { apply parseQueryCondition_nested; try reflexivity; try assumption.
    - apply isCondition_array.
    - apply parseQueryCondition_array_of_literals, Hlits. }
  split; [apply isCondition_array|]. split; [exact E|].
  unfold matchQueryCondition. rewrite E. simpl.
  unfold nestedPredicate. simpl. rewrite String.eqb_refl. simpl.
  pose proof (every_charPredicates [] lits extra Hlits) as Ee.
  change (List.length (@nil value)) with 0 in Ee.
  change ([] ++ lits ++ extra) with (lits ++ extra) in Ee.
  rewrite Ee. reflexivity.
Qed.

(** *** The order of the keys *)

Lemma queryLoop_extends (l : list (string * value)) (acc ps : list predicate) :
  queryLoop l acc = Normal ps ->
  exists r, queryLoop l [] = Normal r /\ ps = acc ++ r.
Proof.
  rewrite queryLoop_acc.
  destruct (queryLoop l []) as [r|e]; simpl; [|discriminate].
  intros E. injection E as <-. eauto.
Qed.

Lemma queryStep_extends (k : string) (v : value) (acc ps : list predicate) :
  queryStep parseQueryCondition k v acc = Normal ps ->
  exists r, queryStep parseQueryCondition k v [] = Normal r /\ ps = acc ++ r.
Proof.
  rewrite queryStep_acc.
  destruct (queryStep parseQueryCondition k v []) as [r|e]; simpl; [|discriminate].
  intros E. injection E as <-. eauto.
Qed.

Lemma queryLoop_Permutation (l l' : list (string * value)) :
  Permutation l l' ->
  forall acc ps, queryLoop l acc = Normal ps ->
  exists ps', queryLoop l' acc = Normal ps' /\ Permutation ps ps'.
Proof.
  induction 1 as [|[k v] l l' HP IH|[k v] [k' v'] l|l l' l'' HP IH HP' IH'];
    intros acc ps E.
  - exists ps. split; [exact E | apply Permutation_refl].
  - simpl in *.
    destruct (queryStep parseQueryCondition k v acc) as [acc'|e]; simpl in *; [|discriminate E].
    apply IH, E.
  - simpl in E.
    destruct (queryStep parseQueryCondition k' v' acc) as [a1|e] eqn:E1; simpl in E;
      [|discriminate E].
    destruct (queryStep parseQueryCondition k v a1) as [a2|e] eqn:E2; simpl in E;
      [|discriminate E].
    apply queryStep_extends in E1. destruct E1 as [r1 [E1 ->]].
    apply queryStep_extends in E2. destruct E2 as [r2 [E2 ->]].
    apply queryLoop_extends in E. destruct E as [r [E ->]].
    exists (((acc ++ r2) ++ r1) ++ r). split.
    + simpl. rewrite queryStep_acc, E2. simpl.
      rewrite queryStep_acc, E1. simpl.
      rewrite queryLoop_acc, E. reflexivity.
    + apply Permutation_app_tail. rewrite <- !app_assoc.
      apply Permutation_app_head, Permutation_app_comm.
  - destruct (IH acc ps E) as [ps' [E' P']].
    destruct (IH' acc ps' E') as [ps'' [E'' P'']].
    exists ps''. split; [exact E'' | eapply Permutation_trans; eassumption].
Qed.

(** X18: the order of the keys of a condition does not change the answer
    as long as no predicate throws on the item: a condition that compiles
    still compiles when its keys are permuted, and it then gives the same
    result on every item on which each of its predicates returns
    normally. *)
Theorem key_order_is_irrelevant_without_throw (props props' : list (string * value))
    (ps : list predicate) (item : value) :
  Permutation props props' ->
  parseQueryCondition (VObj props) = Normal ps ->
  Forall (fun p => exists r, p item = Normal r) ps ->
  (exists ps', parseQueryCondition (VObj props') = Normal ps' /\ Permutation ps ps') /\
  matchQueryCondition item (VObj props') = matchQueryCondition item (VObj props).
Proof.
  intros HP E Hnormal.
  rewrite parseQueryCondition_obj in E.
  destruct (queryLoop_Permutation _ _ HP _ _ E) as [ps' [E' P]].
  rewrite <- parseQueryCondition_obj in E, E'.
  split; [exists ps'; auto|].
  unfold matchQueryCondition. rewrite E, E'. simpl.
  assert (Hnormal' : Forall (fun p => exists r, p item = Normal r) ps')
    by (eapply Permutation_Forall; eassumption).
  destruct (every_without_throw ps item Hnormal) as [ok [Eok Hok]].
  destruct (every_without_throw ps' item Hnormal') as [ok' [Eok' Hok']].
  rewrite Eok, Eok'. f_equal.
  assert (Hiff : ok = true <-> ok' = true).
  { rewrite Hok, Hok'. split; intros F.
    - eapply Permutation_Forall; eassumption.
    - eapply Permutation_Forall; [apply Permutation_sym|]; eassumption. }
  destruct ok, ok'; try reflexivity; destruct Hiff as [H1 H2];
    [specialize (H1 eq_refl) | specialize (H2 eq_refl)]; congruence.
Qed.

(** *** [sortData] *)

Lemma get_throws_TypeError (item : value) (key : string) (e : error) :
  get item key = Throw e -> e = TypeError.
Proof.
  destruct item; simpl; try discriminate;
    try (intros E; injection E as <-; reflexivity);
    destruct (key =? "length"); discriminate.
Qed.

Lemma sortPredicatesOf_cons (item : value) (items : list value) :
  sortPredicatesOf (VArr (item :: items))
  = (p <- sortPredicateOf item ;;
     rest <- sortPredicatesOf (VArr items) ;;
     Normal (p :: rest)).
Proof. reflexivity. Qed.

Lemma sortPredicatesOf_throws_TypeError (sortOrders : value) (e : error) :
  sortPredicatesOf sortOrders = Throw e -> e = TypeError.
Proof.
  destruct sortOrders as [ | | | | | | |items| ];
    try (intros E; injection E as <-; reflexivity).
  induction items as [|item items IH]; [discriminate|].
  rewrite sortPredicatesOf_cons. unfold sortPredicateOf.
  destruct (get item "order") as [order|e0] eqn:Eo; simpl.
  - assert (Hrest : forall p : comparator,
               (rest <- sortPredicatesOf (VArr items) ;; Normal (p :: rest)) = Throw e ->
               e = TypeError).
    { intros p. destruct (sortPredicatesOf (VArr items)) as [rest|e1]; simpl; [discriminate|].
      intros E. apply IH. exact E. }
    destruct (strict_equal order (VStr "asc")); simpl; apply Hrest.
  - intros E. injection E as <-. eapply get_throws_TypeError, Eo.
Qed.

(** X19: [sortData] throws a TypeError, whatever the engine's sort does,
    when the array to sort is not an array, when the sort orders are not an
    array, and when one of the sort orders is undefined or null. *)
Theorem sortData_rejects_ill_formed_arguments
    (array_sort : comparator -> list value -> completion (list value))
    (array sortOrders : value) :
  isArray array = false \/
  isArray sortOrders = false \/
  (exists pre item post,
     sortOrders = VArr (pre ++ item :: post) /\ (item = VUndefined \/ item = VNull)) ->
  sortData array_sort array sortOrders = Throw TypeError.
Proof.
  unfold sortData. intros [Harr|[Hord|[pre [item [post [-> Hitem]]]]]].
  - destruct (sortPredicatesOf sortOrders) as [ps|e] eqn:E; simpl.
    + destruct array; try discriminate Harr; reflexivity.
    + apply sortPredicatesOf_throws_TypeError in E. rewrite E. reflexivity.
  - destruct sortOrders; try discriminate Hord; reflexivity.
  - assert (E : sortPredicatesOf (VArr (pre ++ item :: post)) = Throw TypeError).
    { induction pre as [|x pre IH].
      - change ([] ++ item :: post) with (item :: post).
        rewrite sortPredicatesOf_cons. destruct Hitem as [->| ->]; reflexivity.
      - change ((x :: pre) ++ item :: post) with (x :: (pre ++ item :: post)).
        rewrite sortPredicatesOf_cons, IH.
        destruct (sortPredicateOf x) as [p|e] eqn:Ex; simpl; [reflexivity|].
        unfold sortPredicateOf in Ex.
        destruct (get x "order") as [order|e0] eqn:Eo; simpl in Ex.
        + destruct (strict_equal order (VStr "asc")); discriminate Ex.
        + injection Ex as <-. apply get_throws_TypeError in Eo. rewrite Eo. reflexivity. }
    rewrite E. reflexivity.
Qed.

(** X20: reversing the direction of every sort order is the same as
    exchanging the two items compared: the comparison function built from
    the reversed orders gives on [(a, b)] what the original one gives on
    [(b, a)].  Any [order] other than the string "asc" counts as
    descending. *)
Theorem reversed_orders_swap_the_items (items items' : list value)
    (ps : list comparator) :
  Forall2 opposite items items' ->
  sortPredicatesOf (VArr items) = Normal ps ->
  exists ps',
    sortPredicatesOf (VArr items') = Normal ps' /\
    forall a b, sortComparator ps' a b = sortComparator ps b a.
Proof.
  intros F. revert ps.
  induction F as [|item item' items items' [Hfield [order [order' [Eo [Eo' Hopp]]]]] F IH];
    intros ps E.
  - injection E as <-. exists []. split; reflexivity.
  - rewrite sortPredicatesOf_cons in E. unfold sortPredicateOf in E.
    rewrite Eo in E. cbn [bind] in E.
    destruct (sortPredicatesOf (VArr items)) as [rest|e] eqn:Er;
      [|destruct (strict_equal order (VStr "asc")); discriminate E].
    destruct (IH rest eq_refl) as [rest' [Er' Hrest]].
    rewrite sortPredicatesOf_cons. unfold sortPredicateOf at 1.
    rewrite Eo', Er'. cbn [bind].
    destruct (strict_equal order' (VStr "asc")); simpl in Hopp; rewrite Hopp in E;
      cbn [bind] in E; injection E as <-; eexists; (split; [reflexivity|]);
      intros a b; cbn [sortComparator]; unfold ascending, descending;
      rewrite Hfield, Hrest; reflexivity.
Qed.

Lemma js_sub_undefined (x : value) :
  js_sub VUndefined x = VNum PrimFloat.nan /\ js_sub x VUndefined = VNum PrimFloat.nan.
Proof.
  split; [reflexivity|].
  unfold js_sub, Number_subtract. simpl (ToNumber (ToPrimitive VUndefined)).
  destruct (PrimFloat.is_nan (ToNumber (ToPrimitive x))); reflexivity.
Qed.

(** X21: an item that lacks the field of a sort order ties with every
    item on that order: the difference is NaN, which is falsy, so the
    comparison passes on to the remaining orders (and is 0 when there
    is none). *)
Theorem missing_sort_field_ties (item : value) (items : list value)
    (p : comparator) (ps : list comparator) (field a b x y : value) :
  sortPredicatesOf (VArr (item :: items)) = Normal (p :: ps) ->
  get item "field" = Normal field ->
  get a (ToString field) = Normal x ->
  get b (ToString field) = Normal y ->
  x = VUndefined \/ y = VUndefined ->
  sortComparator (p :: ps) a b = sortComparator ps a b /\
  sortComparator (p :: ps) b a = sortComparator ps b a.
Proof.
  intros E Hfield Ha Hb Hmissing.
  rewrite sortPredicatesOf_cons in E. unfold sortPredicateOf in E.
  destruct (get item "order") as [order|e]; cbn [bind] in E; [|discriminate E].
  assert (Hnan : js_sub x y = VNum PrimFloat.nan /\ js_sub y x = VNum PrimFloat.nan).
  { destruct Hmissing as [->| ->]; [|apply and_comm]; apply js_sub_undefined. }
  destruct Hnan as [Hxy Hyx].
  destruct (strict_equal order (VStr "asc")); cbn [bind] in E;
    (destruct (sortPredicatesOf (VArr items)) as [rest|e]; cbn [bind] in E; [|discriminate E]);
    injection E as <- <-; cbn [sortComparator]; unfold ascending, descending;
    rewrite Hfield; cbn [bind]; rewrite Ha, Hb; cbn [bind]; rewrite ?Hxy, ?Hyx;
    split; reflexivity.
Qed.

(** *** [$contains] and [$notContains] on well-behaved data *)

Lemma conditionLoop_contains (f : string) (operand : value) :
  isUndefined operand = false ->
  conditionLoop f [("$contains", operand)] [] = Normal [containsPredicate f operand] /\
  conditionLoop f [("$notContains", operand)] [] = Normal [notContainsPredicate f operand].
Proof.
  intros Hdef. destruct operand; try discriminate Hdef; split; reflexivity.
Qed.

(** X22: on a field holding an array whose elements are all truthy,
    [$contains] with a single operand matches exactly when some element
    deep-equals the operand, and with a sequence operand exactly when
    every operand element deep-equals some element; [$notContains]
    matches exactly when no operand element deep-equals an element. *)
Theorem contains_on_arrays_of_truthy_elements (f : string) (elems : list value)
    (item : value) :
  logicalKey f = false ->
  Forall (fun x => ToBoolean x = true) elems ->
  get item f = Normal (VArr elems) ->
  (forall operand, isArray operand = false -> isUndefined operand = false ->
     matchQueryCondition item (VObj [(f, VObj [("$contains", operand)])])
     = Normal (existsb (fun x => deepEqual x operand) elems) /\
     matchQueryCondition item (VObj [(f, VObj [("$notContains", operand)])])
     = Normal (negb (existsb (fun x => deepEqual x operand) elems))) /\
  (forall conds,
     matchQueryCondition item (VObj [(f, VObj [("$contains", VArr conds)])])
     = Normal (forallb (fun c => existsb (fun x => deepEqual x c) elems) conds) /\
     matchQueryCondition item (VObj [(f, VObj [("$notContains", VArr conds)])])
     = Normal (forallb (fun c => negb (existsb (fun x => deepEqual x c) elems)) conds)).
Proof.
  intros Hf Htruthy Hget. unfold matchQueryCondition. split.
  - intros operand Hsingle Hdef.
    rewrite !parseQueryCondition_operator by (exact Hf || reflexivity).
    destruct (conditionLoop_contains f operand Hdef) as [-> ->].
    cbn [bind every]. unfold containsPredicate, notContainsPredicate.
    rewrite Hget. cbn [bind].
    assert (E : ToBoolean (array_find (fun x => deepEqual x operand) elems)
                = existsb (fun x => deepEqual x operand) elems)
      by (apply array_find_truthy, Htruthy).
    destruct operand; try discriminate Hsingle; cbn [includes bind]; unfold js_not;
      cbn [ToBoolean]; rewrite E;
      destruct (existsb _ elems); split; reflexivity.
  - intros conds.
    rewrite !parseQueryCondition_operator by (exact Hf || reflexivity).
    destruct (conditionLoop_contains f (VArr conds) eq_refl) as [-> ->].
    cbn [bind every]. unfold containsPredicate, notContainsPredicate.
    rewrite Hget. cbn [bind].
    rewrite (includesAll_truthy_array _ _ Htruthy), (includesNone_truthy_array _ _ Htruthy).
    cbn [bind ToBoolean].
    destruct (forallb (fun c => existsb (fun x => deepEqual x c) elems) conds);
      destruct (forallb (fun c => negb (existsb (fun x => deepEqual x c) elems)) conds);
      split; reflexivity.
Qed.

(** X23: on a field whose value is neither an array nor a string (a
    missing field included) [$contains] and [$notContains] both fail,
    whatever the defined operand; on an array or a string, with the
    empty sequence as operand, both match. *)
Theorem contains_edge_cases (f : string) (item v : value) :
  logicalKey f = false ->
  get item f = Normal v ->
  (arrayOrString v = false ->
   forall operand, isUndefined operand = false ->
     matchQueryCondition item (VObj [(f, VObj [("$contains", operand)])]) = Normal false /\
     matchQueryCondition item (VObj [(f, VObj [("$notContains", operand)])]) = Normal false) /\
  (arrayOrString v = true ->
   matchQueryCondition item (VObj [(f, VObj [("$contains", VArr [])])]) = Normal true /\
   matchQueryCondition item (VObj [(f, VObj [("$notContains", VArr [])])]) = Normal true).
Proof.
  intros Hf Hget. unfold matchQueryCondition. split.
  - intros Hv operand Hdef.
    rewrite !parseQueryCondition_operator by (exact Hf || reflexivity).
    destruct (conditionLoop_contains f operand Hdef) as [-> ->].
    cbn [bind every].
    destruct (contains_other_field_types f operand item v Hv Hget) as [-> ->].
    split; reflexivity.
  - intros Hv.
    rewrite !parseQueryCondition_operator by (exact Hf || reflexivity).
    destruct (conditionLoop_contains f (VArr []) eq_refl) as [-> ->].
    cbn [bind every]. unfold containsPredicate, notContainsPredicate.
    rewrite Hget. destruct v; try discriminate Hv; split; reflexivity.
Qed.

(** *** Invalid dates *)

Lemma IsLessThan_nan_l (n : float) (c : value) :
  PrimFloat.is_nan n = true -> IsLessThan (VNum n) c = None.
Proof.
  intros Hn. unfold IsLessThan, Number_lessThan. simpl (ToPrimitive (VNum n)).
  cbv iota. simpl (ToNumber (VNum n)). rewrite Hn. reflexivity.
Qed.

Lemma IsLessThan_nan_r (n : float) (c : value) :
  PrimFloat.is_nan n = true -> IsLessThan c (VNum n) = None.
Proof.
  intros Hn. unfold IsLessThan, Number_lessThan. simpl (ToPrimitive (VNum n)).
  destruct (ToPrimitive c); simpl ToNumber; rewrite Hn;
    match goal with
    | |- (if ?b then _ else _) = _ => destruct b; reflexivity
    end.
Qed.

Lemma conditionLoop_dates (f : string) (operand : value) :
  isUndefined operand = false ->
  conditionLoop f [("$dateBefore", operand)] []
  = Normal [dateBeforePredicate f (dateOperand operand)] /\
  conditionLoop f [("$dateAfter", operand)] []
  = Normal [dateAfterPredicate f (dateOperand operand)].
Proof.
  intros Hdef. destruct operand; try discriminate Hdef; split; reflexivity.
Qed.

(** X24: an invalid date never satisfies a date operator.  When the field
    value is an invalid Date, NaN or a string that does not parse as a
    date, or when the operand is an invalid Date or NaN, both
    [$dateBefore] and [$dateAfter] return false. *)
Theorem invalid_dates_match_nothing (f : string) (operand item v : value) :
  logicalKey f = false ->
  isUndefined operand = false ->
  get item f = Normal v ->
  invalidDateField v = true \/ invalidDateOperand operand = true ->
  matchQueryCondition item (VObj [(f, VObj [("$dateBefore", operand)])]) = Normal false /\
  matchQueryCondition item (VObj [(f, VObj [("$dateAfter", operand)])]) = Normal false.
Proof.
  intros Hf Hdef Hget Hinvalid. unfold matchQueryCondition.
  rewrite !parseQueryCondition_operator by (exact Hf || reflexivity).
  destruct (conditionLoop_dates f operand Hdef) as [-> ->].
  cbn [bind every]. unfold dateBeforePredicate, dateAfterPredicate.
  rewrite Hget. cbn [bind]. unfold js_lt, js_gt.
  destruct Hinvalid as [Hv|Hop].
  - assert (E : exists n, dateField v = VNum n /\ PrimFloat.is_nan n = true)
      by (destruct v; try discriminate Hv; eexists; (split; [reflexivity | exact Hv])).
    destruct E as [n [-> Hn]].
    rewrite (IsLessThan_nan_l n _ Hn), (IsLessThan_nan_r n _ Hn). split; reflexivity.
  - assert (E : exists n, dateOperand operand = VNum n /\ PrimFloat.is_nan n = true)
      by (destruct operand; try discriminate Hop; eexists; (split; [reflexivity | exact Hop])).
    destruct E as [n [-> Hn]].
    rewrite (IsLessThan_nan_l n _ Hn), (IsLessThan_nan_r n _ Hn). split; reflexivity.
Qed.

(** *** Ordered comparisons *)

(** X25: no item passes both [$less] and [$greaterEqual] with the same
    defined operand, nor both [$greater] and [$lessEqual]: such a
    condition never matches. *)
Theorem opposite_comparisons_never_both_hold (f : string) (operand item : value) :
  logicalKey f = false ->
  isUndefined operand = false ->
  matchQueryCondition item
    (VObj [(f, VObj [("$less", operand); ("$greaterEqual", operand)])]) <> Normal true /\
  matchQueryCondition item
    (VObj [(f, VObj [("$greater", operand); ("$lessEqual", operand)])]) <> Normal true.
Proof.
  intros Hf Hdef. unfold matchQueryCondition.
  rewrite !parseQueryCondition_operator by (exact Hf || reflexivity).
  assert (E1 : conditionLoop f [("$less", operand); ("$greaterEqual", operand)] []
               = Normal [lessPredicate f operand; greaterEqualPredicate f operand])
    by (destruct operand; try discriminate Hdef; reflexivity).
  assert (E2 : conditionLoop f [("$greater", operand); ("$lessEqual", operand)] []
               = Normal [greaterPredicate f operand; lessEqualPredicate f operand])
    by (destruct operand; try discriminate Hdef; reflexivity).
  rewrite E1, E2. cbn [bind every].
  unfold lessPredicate, greaterEqualPredicate, greaterPredicate, lessEqualPredicate.
  destruct (get item f) as [v|e]; cbn [bind]; [|split; discriminate].
  unfold js_lt, js_ge, js_gt, js_le. cbn [ToBoolean].
  split.
  - destruct (IsLessThan v operand) as [[|]|]; cbn; discriminate.
  - destruct (IsLessThan operand v) as [[|]|]; cbn; discriminate.
Qed.

(** *** Literals *)

(** X26: a literal is compared without coercion: when the field value and
    the literal have different types, the condition does not match. *)
Theorem literal_of_another_type_never_matches (k : string) (lit item v : value) :
  logicalKey k = false ->
  isCondition lit = false ->
  (typeof lit =? "object") && ToBoolean lit = false ->
  get item k = Normal v ->
  typeof v <> typeof lit ->
  matchQueryCondition item (VObj [(k, lit)]) = Normal false.
Proof.
  intros Hk Hcond Hlit Hget Htype. unfold matchQueryCondition.
  rewrite parseQueryCondition_obj. cbn [queryLoop]. unfold queryStep.
  rewrite Hk, Hcond, Hlit. cbn [bind every app]. unfold literalPredicate.
  rewrite Hget. cbn [bind].
  destruct v, lit; try reflexivity; exfalso; apply Htype; reflexivity.
Qed.

End FurtherProperties.

(** ** The repository's tests, replayed on the model *)

Example test_empty_data_empty_condition :
  matchQueryCondition (VObj []) (VObj []) = Normal true.
Proof. reflexivity. Qed.

Example test_empty_data_nonempty_condition :
  matchQueryCondition (VObj []) (VObj [("name", VStr "John")]) = Normal false.
Proof. reflexivity. Qed.

Example test_equal :
  let data := VObj [("_id", VStr "1"); ("name", VStr "John"); ("age", num 30)] in
  matchQueryCondition data (VObj [("age", VObj [("$equal", num 30)])]) = Normal true /\
  matchQueryCondition data (VObj [("age", VObj [("$equal", num 25)])]) = Normal false.
Proof. split; vm_compute; reflexivity. Qed.

Example test_or :
  let data := VObj [("_id", VStr "1"); ("name", VStr "John"); ("age", num 30)] in
  matchQueryCondition data
    (VObj [("$or", VArr [VObj [("age", VObj [("$equal", num 30)])];
                         VObj [("name", VObj [("$equal", VStr "Jane")])]])])
  = Normal true.
Proof. vm_compute. reflexivity. Qed.

Example test_nested :
  matchQueryCondition
    (VObj [("_id", VStr "1"); ("user", VObj [("name", VStr "John"); ("age", num 30)])])
    (VObj [("user", VObj [("age", VObj [("$equal", num 30)])])])
  = Normal true.
Proof. vm_compute. reflexivity. Qed.

Example test_complex :
  let condition :=
    VObj [("$or", VArr [VObj [("name", VStr "John")];
                        VObj [("$and", VArr [VObj [("age", VObj [("$greater", num 25)])];
                                             VObj [("address", VObj [("city", VStr "New York")])]])]])] in
  matchQueryCondition
    (VObj [("name", VStr "John"); ("age", num 30); ("address", VObj [("city", VStr "Los Angeles")])])
    condition = Normal true /\
  matchQueryCondition
    (VObj [("name", VStr "Jane"); ("age", num 30); ("address", VObj [("city", VStr "New York")])])
    condition = Normal true /\
  matchQueryCondition
    (VObj [("name", VStr "Doe"); ("age", num 20); ("address", VObj [("city", VStr "New York")])])
    condition = Normal false.
Proof. repeat split; vm_compute; reflexivity. Qed.

Example test_array_condition :
  let condition :=
    VObj [("details", VObj [("skills", VArr [VStr "JavaScript"; VStr "TypeScript"])])] in
  matchQueryCondition
    (VObj [("name", VStr "John");
           ("details", VObj [("skills", VArr [VStr "JavaScript"; VStr "TypeScript"])])])
    condition = Normal true /\
  matchQueryCondition
    (VObj [("name", VStr "John");
           ("details", VObj [("skills", VArr [VStr "JavaScript"; VStr "React"])])])
    condition = Normal false.
Proof. repeat split; vm_compute; reflexivity. Qed.

Example test_contains :
  let tags := VObj [("tags", VObj [("$contains", VStr "javascript")])] in
  let descr := VObj [("description", VObj [("$contains", VStr "JavaScript")])] in
  matchQueryCondition (VObj [("_id", VStr "1"); ("tags", VArr [VStr "tech"; VStr "javascript"])])
    tags = Normal true /\
  matchQueryCondition (VObj [("_id", VStr "1"); ("tags", VArr [VStr "tech"; VStr "html"])])
    tags = Normal false /\
  matchQueryCondition (VObj [("_id", VStr "1"); ("description", VStr "A simple JavaScript example")])
    descr = Normal true /\
  matchQueryCondition (VObj [("_id", VStr "1"); ("description", VStr "A simple HTML example")])
    descr = Normal false.
Proof. repeat split; vm_compute; reflexivity. Qed.

Example test_in_notIn :
  let cin := VObj [("status", VObj [("$in", VArr [VStr "active"; VStr "inactive"])])] in
  let cnotin := VObj [("status", VObj [("$notIn", VArr [VStr "active"; VStr "inactive"])])] in
  matchQueryCondition (VObj [("_id", VStr "1"); ("status", VStr "active")]) cin = Normal true /\
  matchQueryCondition (VObj [("_id", VStr "1"); ("status", VStr "pending")]) cin = Normal false /\
  matchQueryCondition (VObj [("_id", VStr "1"); ("status", VStr "pending")]) cnotin = Normal true /\
  matchQueryCondition (VObj [("_id", VStr "1"); ("status", VStr "active")]) cnotin = Normal false.
Proof. repeat split; vm_compute; reflexivity. Qed.

Example test_nor :
  let condition := VObj [("$nor", VArr [VObj [("name", VStr "John")]; VObj [("age", num 30)]])] in
  matchQueryCondition (VObj [("name", VStr "John"); ("age", num 25)]) condition = Normal false /\
  matchQueryCondition (VObj [("name", VStr "Jane"); ("age", num 30)]) condition = Normal false /\
  matchQueryCondition (VObj [("name", VStr "Doe"); ("age", num 20)]) condition = Normal true.
Proof. repeat split; vm_compute; reflexivity. Qed.

Example test_not :
  let condition := VObj [("name", VObj [("$not", VStr "John")])] in
  matchQueryCondition (VObj [("name", VStr "John"); ("age", num 30)]) condition = Normal false /\
  matchQueryCondition (VObj [("name", VStr "Jane"); ("age", num 25)]) condition = Normal true.
Proof. repeat split; vm_compute; reflexivity. Qed.

Example test_notContains :
  let tags := VObj [("tags", VObj [("$notContains", VStr "javascript")])] in
  let descr := VObj [("description", VObj [("$notContains", VStr "JavaScript")])] in
  matchQueryCondition (VObj [("_id", VStr "1"); ("tags", VArr [VStr "tech"; VStr "html"])])
    tags = Normal true /\
  matchQueryCondition (VObj [("_id", VStr "1"); ("tags", VArr [VStr "tech"; VStr "javascript"])])
    tags = Normal false /\
  matchQueryCondition (VObj [("_id", VStr "1"); ("description", VStr "A simple HTML example")])
    descr = Normal true /\
  matchQueryCondition (VObj [("_id", VStr "1"); ("description", VStr "A simple JavaScript example")])
    descr = Normal false.
Proof. repeat split; vm_compute; reflexivity. Qed.

Example test_parse_literal :
  exists p, parseQueryCondition (VObj [("age", num 30)]) = Normal [p] /\
            p (VObj [("age", num 30)]) = Normal (VBool true) /\
            p (VObj [("age", num 25)]) = Normal (VBool false).
Proof. eexists. repeat split; vm_compute; reflexivity. Qed.

Example test_query_null :
  exists filter, query VNull = Normal filter /\
                 filter (VObj [("name", VStr "John"); ("age", num 30)]) = Normal true.
Proof. eexists. split; reflexivity. Qed.

(** ** Closed examples, on the example host *)

(** C1: the same failing input through [$and], where the branch is an AND. *)
Example C1_field_and_agrees :
  matchQueryCondition (VObj [("f", num 10)])
    (VObj [("f", VObj [("$and", VArr [VObj [("$greater", num 5); ("$less", num 3)]])])])
  = Normal false.
Proof. vm_compute. reflexivity. Qed.

(** C2 fails as stated: with the operand [["a", "b"]] on the field value
    [["a"]], [$contains] is false (b is missing) and [$notContains] is
    false too (a is present). *)
Lemma C2_counterexample :
  let item := VObj [("tags", VArr [VStr "a"])] in
  let operand := VArr [VStr "a"; VStr "b"] in
  containsPredicate "tags" operand item = Normal (VBool false) /\
  notContainsPredicate "tags" operand item = Normal (VBool false) /\
  matchQueryCondition item (VObj [("tags", VObj [("$contains", operand)])]) = Normal false /\
  matchQueryCondition item (VObj [("tags", VObj [("$notContains", operand)])]) = Normal false.
Proof. repeat split; vm_compute; reflexivity. Qed.

Lemma C2_witness :
  let item := VObj [("tags", VArr [VStr "tech"; VStr "html"])] in
  notContainsPredicate "tags" (VStr "javascript") item
  = (r <- containsPredicate "tags" (VStr "javascript") item ;; Normal (js_not r)) /\
  containsPredicate "tags" (VArr [VStr "html"; VStr "css"]) item
  = Normal (VBool (forallb (fun c => existsb (fun x => deepEqual x c)
                                       [VStr "tech"; VStr "html"])
                     [VStr "html"; VStr "css"])) /\
  notContainsPredicate "tags" (VArr [VStr "html"; VStr "css"]) item
  = Normal (VBool (forallb (fun c => negb (existsb (fun x => deepEqual x c)
                                             [VStr "tech"; VStr "html"]))
                     [VStr "html"; VStr "css"])).
Proof.
  assert (Hv : arrayOrString (VArr [VStr "tech"; VStr "html"]) = true) by reflexivity.
  assert (Hget : get (VObj [("tags", VArr [VStr "tech"; VStr "html"])]) "tags"
                 = Normal (VArr [VStr "tech"; VStr "html"])) by reflexivity.
  destruct (C2_notContains_against_contains "tags" _ _ Hv Hget) as [Hsingle [Harray _]].
  split; [apply Hsingle; reflexivity|].
  apply Harray; [reflexivity | repeat constructor].
Defined.

Lemma C3_witness :
  matchQueryCondition (VObj [("status", num 0)])
    (VObj [("status", VObj [("$in", VArr [num 0])])]) = Normal false /\
  matchQueryCondition (VObj [("status", num 0)])
    (VObj [("status", VObj [("$notIn", VArr [num 0])])]) = Normal true.
Proof. apply (C3_in_misses_falsy_candidates (num 0)); reflexivity. Defined.

(** C3: the other falsy candidates, the empty string and false. *)
Example C3_other_falsy_candidates :
  matchQueryCondition (VObj [("status", VStr "")])
    (VObj [("status", VObj [("$in", VArr [VStr "active"; VStr ""])])]) = Normal false /\
  matchQueryCondition (VObj [("done", VBool false)])
    (VObj [("done", VObj [("$in", VArr [VBool false])])]) = Normal false /\
  matchQueryCondition (VObj [("status", VStr "active")])
    (VObj [("status", VObj [("$in", VArr [VStr "active"; VStr ""])])]) = Normal true.
Proof. repeat split; vm_compute; reflexivity. Qed.

(** C4 fails as stated: one key, two predicates. *)
Lemma C4_counterexample :
  let props := [("age", VObj [("$greater", num 1); ("$less", num 5)])] in
  exists ps, parseQueryCondition (VObj props) = Normal ps /\
             List.length props = 1 /\ List.length ps = 2.
Proof. eexists. repeat split. Qed.

Lemma C4_witness :
  List.length [greaterPredicate "age" (num 1); lessPredicate "age" (num 5)]
  = list_sum (map contribution [("age", VObj [("$greater", num 1); ("$less", num 5)])]).
Proof. apply C4_predicates_per_key. reflexivity. Defined.



(** C6 fails as stated: a string operand is not parsed as a date.  The
    field holds the date of timestamp 0 and the operand is the string
    "1970-01-02", whose timestamp is 86400000: the predicate compares 0
    with the string and answers false. *)
Lemma C6_counterexample :
  let item := VObj [("d", VDate PrimFloat.zero)] in
  let operand := VStr "1970-01-02" in
  dateNumberOrString operand = true /\
  js_lt (VNum (timestamp (VDate PrimFloat.zero))) (VNum (timestamp operand)) = true /\
  exists before,
    parseCondition "d" (VObj [("$dateBefore", operand)]) [] = Normal [before] /\
    before item = Normal (VBool false).
Proof.
  split; [reflexivity|]. split; [vm_compute; reflexivity|].
  eexists. split; [reflexivity|]. vm_compute. reflexivity.
Qed.

Lemma C6_witness :
  exists before after,
    parseCondition "d" (VObj [("$dateBefore", VDate 86400000%float)]) [] = Normal [before] /\
    parseCondition "d" (VObj [("$dateAfter", VDate 86400000%float)]) [] = Normal [after] /\
    before (VObj [("d", VStr "1970-01-01")])
    = Normal (VBool (js_lt (VNum (timestamp (VStr "1970-01-01")))
                           (VNum (timestamp (VDate 86400000%float))))) /\
    after (VObj [("d", VStr "1970-01-01")])
    = Normal (VBool (js_gt (VNum (timestamp (VStr "1970-01-01")))
                           (VNum (timestamp (VDate 86400000%float))))).
Proof.
  apply (C6_date_predicates_compare_timestamps "d" (VDate 86400000%float)
           (VObj [("d", VStr "1970-01-01")]) (VStr "1970-01-01")); reflexivity.
Defined.

Lemma C8_witness :
  exists p,
    parseQueryCondition (VObj [("user", VObj [("age", num 30)])]) = Normal [p] /\
    forall item v, get item "user" = Normal v ->
      ((v = VUndefined \/ v = VNull) -> p item = Normal (VBool false)) /\
      (v <> VUndefined -> v <> VNull ->
         p item = (ok <- every [literalPredicate "age" (num 30)] v ;; Normal (VBool ok)) /\
         (p item = Normal (VBool true) <->
          Forall (fun fn => holds fn v) [literalPredicate "age" (num 30)])).
Proof.
  apply (C8_nested_record_predicate "user" (VObj [("age", num 30)])
           [literalPredicate "age" (num 30)]); reflexivity.
Defined.

Lemma C9_witness :
  parseQueryCondition (VObj [("age", VObj [("$equal", VUndefined)])]) = Normal [] /\
  forall item,
    matchQueryCondition item (VObj [("age", VObj [("$equal", VUndefined)])]) = Normal true.
Proof.
  apply C9_operator_shape_by_key_presence; try reflexivity.
  intros k v [E|[]] _. injection E as _ <-. reflexivity.
Defined.

Lemma C10_witness :
  matchQueryCondition (VObj [("_id", VStr "1")])
    (VObj [("name", VObj [("$match", VStr "fine")])]) = Normal true.
Proof.
  assert (Hvalid : regexp_valid "fine" = true) by reflexivity.
  assert (Hget : get (VObj [("_id", VStr "1")]) "name" = Normal VUndefined) by reflexivity.
  destruct (C10_match_tests_the_text_undefined "name" "fine" _ Hvalid Hget)
    as [_ [_ [p [_ [_ [_ Hmatch]]]]]].
  apply Hmatch; reflexivity.
Defined.

(** ** Witnesses of the further properties, on the example host *)

Lemma query_filter_witness :
  every [literalPredicate "age" (num 30)] (VObj [("age", num 30)])
  = matchQueryCondition (VObj [("age", num 30)]) (VObj [("age", num 30)]).
Proof.
  apply (proj1 (query_filter_is_matchQueryCondition (VObj [("age", num 30)]))
               (fun v => every [literalPredicate "age" (num 30)] v)).
  reflexivity.
Defined.

Lemma keys_are_anded_witness :
  parseQueryCondition (VObj ([("name", VStr "John")] ++ [("age", num 30)]))
  = Normal ([literalPredicate "name" (VStr "John")] ++ [literalPredicate "age" (num 30)]) /\
  matchQueryCondition (VObj [("name", VStr "Jane"); ("age", num 30)])
    (VObj ([("name", VStr "John")] ++ [("age", num 30)]))
  = (ok <- matchQueryCondition (VObj [("name", VStr "Jane"); ("age", num 30)])
             (VObj [("name", VStr "John")]) ;;
     if ok then matchQueryCondition (VObj [("name", VStr "Jane"); ("age", num 30)])
                  (VObj [("age", num 30)])
     else Normal false).
Proof. apply keys_are_anded_left_to_right; reflexivity. Defined.

Lemma logical_key_witness :
  exists e,
    parseQueryCondition (VObj ([] ++ [("$or", VObj [("name", VStr "John")])])) = Throw e /\
    query (VObj ([] ++ [("$or", VObj [("name", VStr "John")])])) = Throw e /\
    (forall item,
       matchQueryCondition item (VObj ([] ++ [("$or", VObj [("name", VStr "John")])]))
       = Throw e) /\
    ((exists ps, parseQueryCondition (VObj []) = Normal ps) -> e = TypeError).
Proof. apply logical_key_needs_an_array; reflexivity. Defined.

Lemma field_logical_operator_witness :
  exists e,
    parseQueryCondition (VObj [("age", VObj ([] ++ [("$or", num 5)]))]) = Throw e /\
    (forall item,
       matchQueryCondition item (VObj [("age", VObj ([] ++ [("$or", num 5)]))]) = Throw e) /\
    ((exists ps, parseCondition "age" (VObj []) [] = Normal ps) -> e = TypeError).
Proof. apply field_logical_operator_needs_an_array; reflexivity. Defined.

Lemma in_operand_witness :
  exists p,
    parseQueryCondition (VObj [("age", VObj [("$in", num 5)])]) = Normal [p] /\
    forall item,
      p item = Throw TypeError /\
      matchQueryCondition item (VObj [("age", VObj [("$in", num 5)])]) = Throw TypeError.
Proof.
  apply in_operand_neither_array_nor_string; try reflexivity. left. reflexivity.
Defined.

Lemma match_operand_witness :
  (forall item,
     matchQueryCondition item (VObj [("name", VObj [("$match", VStr "(")])])
     = Throw SyntaxError) /\
  (forall item,
     matchQueryCondition item (VObj [("name", VObj [("$match", num 5)])])
     = Throw TypeError).
Proof.
  split.
  - assert (Hf : logicalKey "name" = false) by reflexivity.
    assert (Hinvalid : regexp_valid "(" = false) by reflexivity.
    apply (proj1 (match_operand_errors "name" (VStr "(") Hf) "(" eq_refl Hinvalid).
  - assert (Hf : logicalKey "name" = false) by reflexivity.
    apply (proj2 (match_operand_errors "name" (num 5) Hf)).
    + discriminate.
    + discriminate.
    + reflexivity.
Defined.

Lemma null_item_witness :
  matchQueryCondition VNull (VObj [("name", VStr "John")]) = Throw TypeError.
Proof.
  apply (null_item_throws VNull "name" (VStr "John") []
           [literalPredicate "name" (VStr "John")]); try reflexivity.
  right. reflexivity.
Defined.

Lemma field_and_witness :
  matchQueryCondition (VObj [("f", num 4)])
    (VObj [("f", VObj [("$and", VArr [VObj [("$greater", num 3)]; VObj [("$less", num 5)]])])])
  = Normal true <->
  Forall (fun ps => every ps (VObj [("f", num 4)]) = Normal true)
    [[greaterPredicate "f" (num 3)]; [lessPredicate "f" (num 5)]].
Proof. apply field_and_matches_iff_every_branch; reflexivity. Defined.

Lemma field_or_witness :
  matchQueryCondition (VObj [("f", num 4)])
    (VObj [("f", VObj [("$or", VArr [VObj [("$greater", num 5)]; VObj [("$less", num 3)]])])])
  = every [orBranches [[greaterPredicate "f" (num 5)]; [lessPredicate "f" (num 3)]]]
      (VObj [("f", num 4)]) /\
  matchQueryCondition (VObj [("f", num 4)])
    (VObj [("f", VObj [("$nor", VArr [VObj [("$greater", num 5)]; VObj [("$less", num 3)]])])])
  = every [norBranches [[greaterPredicate "f" (num 5)]; [lessPredicate "f" (num 3)]]]
      (VObj [("f", num 4)]).
Proof.
  apply field_or_on_single_operator_branches; try reflexivity.
  repeat constructor.
Defined.

Lemma notIn_negates_in_witness :
  matchQueryCondition (VObj [("status", VStr "pending")])
    (VObj [("status", VObj [("$notIn", VArr [VStr "active"])])])
  = (ok <- matchQueryCondition (VObj [("status", VStr "pending")])
             (VObj [("status", VObj [("$in", VArr [VStr "active"])])]) ;;
     Normal (negb ok)).
Proof. apply notIn_negates_in; reflexivity. Defined.

Lemma not_negates_equal_witness :
  matchQueryCondition (VObj [("name", VStr "Jane")])
    (VObj [("name", VObj [("$not", VStr "John")])])
  = (ok <- matchQueryCondition (VObj [("name", VStr "Jane")])
             (VObj [("name", VObj [("$equal", VStr "John")])]) ;;
     Normal (negb ok)).
Proof. apply not_negates_equal; reflexivity. Defined.

Lemma in_is_membership_witness :
  matchQueryCondition (VObj [("status", VStr "active")])
    (VObj [("status", VObj [("$in", VArr [VStr "active"; VStr "inactive"])])])
  = Normal (existsb (fun c => deepEqual c (VStr "active")) [VStr "active"; VStr "inactive"]) /\
  matchQueryCondition (VObj [("status", VStr "active")])
    (VObj [("status", VObj [("$notIn", VArr [VStr "active"; VStr "inactive"])])])
  = Normal (negb (existsb (fun c => deepEqual c (VStr "active"))
                    [VStr "active"; VStr "inactive"])).
Proof.
  apply in_is_membership_among_truthy_candidates; try reflexivity.
  repeat constructor.
Defined.

Lemma array_condition_witness :
  isCondition (VArr [VStr "JavaScript"]) = false /\
  parseQueryCondition (VObj [("skills", VArr [VStr "JavaScript"])])
  = Normal [nestedPredicate "skills" (charPredicates 0 [VStr "JavaScript"])] /\
  matchQueryCondition (VObj [("skills", VArr ([VStr "JavaScript"] ++ [VStr "React"]))])
    (VObj [("skills", VArr [VStr "JavaScript"])])
  = Normal true.
Proof.
  apply array_condition_matches_by_prefix; try reflexivity.
  repeat constructor.
Defined.

Lemma key_order_witness :
  (exists ps',
     parseQueryCondition (VObj [("age", num 30); ("name", VStr "John")]) = Normal ps' /\
     Permutation [literalPredicate "name" (VStr "John"); literalPredicate "age" (num 30)] ps') /\
  matchQueryCondition (VObj [("name", VStr "John"); ("age", num 25)])
    (VObj [("age", num 30); ("name", VStr "John")])
  = matchQueryCondition (VObj [("name", VStr "John"); ("age", num 25)])
      (VObj [("name", VStr "John"); ("age", num 30)]).
Proof.
  apply key_order_is_irrelevant_without_throw.
  - apply perm_swap.
  - reflexivity.
  - repeat constructor; eexists; reflexivity.
Defined.

Lemma sortData_rejects_witness :
  sortData (fun _ elems => Normal elems) (VArr [VObj [("age", num 30)]]) VNull
  = Throw TypeError.
Proof.
  apply sortData_rejects_ill_formed_arguments. right. left. reflexivity.
Defined.

Lemma reversed_orders_witness :
  exists ps',
    sortPredicatesOf (VArr [VObj [("order", VStr "desc"); ("field", VStr "age")]])
    = Normal ps' /\
    forall a b,
      sortComparator ps' a b
      = sortComparator [ascending (VObj [("order", VStr "asc"); ("field", VStr "age")])] b a.
Proof.
  apply (reversed_orders_swap_the_items
           [VObj [("order", VStr "asc"); ("field", VStr "age")]]).
  - constructor; [|constructor].
    split; [reflexivity|]. exists (VStr "asc"), (VStr "desc"). repeat split.
  - reflexivity.
Defined.

Lemma missing_sort_field_witness :
  let rule := VObj [("order", VStr "asc"); ("field", VStr "age")] in
  let a := VObj [("name", VStr "John")] in
  let b := VObj [("name", VStr "Jane"); ("age", num 30)] in
  sortComparator [ascending rule] a b = sortComparator [] a b /\
  sortComparator [ascending rule] b a = sortComparator [] b a.
Proof.
  apply (missing_sort_field_ties (VObj [("order", VStr "asc"); ("field", VStr "age")]) []
           _ [] (VStr "age") _ _ VUndefined (num 30)); try reflexivity.
  left. reflexivity.
Defined.

Lemma contains_on_arrays_witness :
  matchQueryCondition (VObj [("tags", VArr [VStr "tech"; VStr "html"])])
    (VObj [("tags", VObj [("$contains", VStr "html")])])
  = Normal (existsb (fun x => deepEqual x (VStr "html")) [VStr "tech"; VStr "html"]) /\
  matchQueryCondition (VObj [("tags", VArr [VStr "tech"; VStr "html"])])
    (VObj [("tags", VObj [("$notContains", VStr "html")])])
  = Normal (negb (existsb (fun x => deepEqual x (VStr "html")) [VStr "tech"; VStr "html"])).
Proof.
  assert (Hf : logicalKey "tags" = false) by reflexivity.
  assert (Htruthy : Forall (fun x => ToBoolean x = true) [VStr "tech"; VStr "html"])
    by (repeat constructor).
  assert (Hget : get (VObj [("tags", VArr [VStr "tech"; VStr "html"])]) "tags"
                 = Normal (VArr [VStr "tech"; VStr "html"])) by reflexivity.
  apply (proj1 (contains_on_arrays_of_truthy_elements "tags" _ _ Hf Htruthy Hget));
    reflexivity.
Defined.

Lemma contains_edge_witness :
  matchQueryCondition (VObj [("count", num 5)])
    (VObj [("count", VObj [("$contains", num 5)])]) = Normal false /\
  matchQueryCondition (VObj [("count", num 5)])
    (VObj [("count", VObj [("$notContains", num 5)])]) = Normal false.
Proof.
  assert (Hf : logicalKey "count" = false) by reflexivity.
  assert (Hget : get (VObj [("count", num 5)]) "count" = Normal (num 5)) by reflexivity.
  apply (proj1 (contains_edge_cases "count" _ _ Hf Hget)); reflexivity.
Defined.

Lemma invalid_dates_witness :
  matchQueryCondition (VObj [("born", VStr "not a date")])
    (VObj [("born", VObj [("$dateBefore", VDate 86400000%float)])]) = Normal false /\
  matchQueryCondition (VObj [("born", VStr "not a date")])
    (VObj [("born", VObj [("$dateAfter", VDate 86400000%float)])]) = Normal false.
Proof.
  apply (invalid_dates_match_nothing "born" (VDate 86400000%float) _ (VStr "not a date"));
    try reflexivity.
  left. reflexivity.
Defined.

Lemma opposite_comparisons_witness :
  matchQueryCondition (VObj [("age", num 20)])
    (VObj [("age", VObj [("$less", num 18); ("$greaterEqual", num 18)])]) <> Normal true /\
  matchQueryCondition (VObj [("age", num 20)])
    (VObj [("age", VObj [("$greater", num 18); ("$lessEqual", num 18)])]) <> Normal true.
Proof. apply opposite_comparisons_never_both_hold; reflexivity. Defined.

Lemma literal_of_another_type_witness :
  matchQueryCondition (VObj [("age", num 30)]) (VObj [("age", VStr "30")]) = Normal false.
Proof.
  apply (literal_of_another_type_never_matches "age" (VStr "30") _ (num 30));
    try reflexivity.
  discriminate.
Defined.
